(** * Data-Analysis-Modules: grouped aggregation, polynomial maximum, weighted average

    A shallow embedding of the three functions of the repository,
    [transform_and_select_columns_dynamic] (aggregate_dataframe.py),
    [compute_max] (compute_max.py) and [weighted_average_with_error]
    (error_weighted_average.py), and the properties their specification states.

    Numbers.  The cells of an input table and the samples of an input series are
    finite numbers, modelled as reals ([R]): an integer column is the same list
    read through [IZR], and missing values in the input are outside the model.
    Rounding and overflow are not modelled.  Values the code computes may be
    infinite or NaN; they are [float64] below, the reals extended with the three
    IEEE special values and their arithmetic.

    Exceptions.  A Python call that may raise returns a [result].

    Libraries.  The functions are a few lines each over pandas and numpy.  What
    they use of pandas is modelled here as pandas documents it: a table is an
    ordered list of named columns, [groupby] sorts its keys, ['std'] divides by
    N - 1 and is NaN on a single value, the [sum] of a series skips NaN, a
    slice clips its bounds and counts a negative bound from the end.  Of numpy,
    [np.polyfit] checks its arguments as numpy does and [np.polyder] is
    computed; the least-squares solver and the root finder are the two fields
    of a [NumPy] record, and [compute_max] is stated for any such record.  The
    record [numpy] holds the two routines in exact arithmetic; the examples
    are computed with it. *)

From Stdlib Require Import Reals Lra Lia String List ZArith Bool.
From Stdlib Require Import Sorting.Sorted Permutation ClassicalEpsilon.
Import ListNotations.
Local Open Scope string_scope.
Local Open Scope R_scope.

(* ================================================================= *)
(** ** Python results and exceptions *)

Module Py.

Inductive exception : Type :=
| KeyError (key : string)
| ValueError (msg : string)
| TypeError (msg : string)
| IndexError (msg : string).

Inductive result (A : Type) : Type :=
| Ok (a : A)
| Raise (e : exception).

Arguments Ok {A} a.
Arguments Raise {A} e.

Definition bind {A B : Type} (c : result A) (k : A -> result B) : result B :=
  match c with
  | Ok a => k a
  | Raise e => Raise e
  end.

Definition raises {A : Type} (c : result A) : Prop :=
  exists e, c = Raise e.

Definition returns {A : Type} (c : result A) : Prop :=
  exists a, c = Ok a.

End Py.
Import Py.

Notation "x <- c ;; k" := (Py.bind c (fun x => k))
  (at level 61, c at next level, right associativity).

(* ================================================================= *)
(** ** Computed numbers: reals with the IEEE special values *)

Inductive float64 : Type :=
| Fin (r : R)
| PInf
| NInf
| NaN.

(** The sign of a real, as the float operations look at it.  A zero is the
    positive zero: every zero the code divides by is a square or an empty sum. *)
Definition Rsign (r : R) : comparison :=
  if Rlt_dec 0 r then Gt else if Rlt_dec r 0 then Lt else Eq.

Definition signed_inf (s : comparison) : float64 :=
  match s with Gt => PInf | Lt => NInf | Eq => NaN end.

Definition fopp (a : float64) : float64 :=
  match a with
  | Fin r => Fin (- r)
  | PInf => NInf
  | NInf => PInf
  | NaN => NaN
  end.

Definition fadd (a b : float64) : float64 :=
  match a, b with
  | NaN, _ | _, NaN => NaN
  | Fin x, Fin y => Fin (x + y)
  | PInf, NInf | NInf, PInf => NaN
  | PInf, _ | _, PInf => PInf
  | NInf, _ | _, NInf => NInf
  end.

Definition fmul (a b : float64) : float64 :=
  match a, b with
  | NaN, _ | _, NaN => NaN
  | Fin x, Fin y => Fin (x * y)
  | Fin x, PInf | PInf, Fin x => signed_inf (Rsign x)
  | Fin x, NInf | NInf, Fin x => fopp (signed_inf (Rsign x))
  | PInf, PInf | NInf, NInf => PInf
  | PInf, NInf | NInf, PInf => NInf
  end.

(** Division never raises: a finite value over zero is an infinity of its
    sign, and zero over zero or infinity over infinity is NaN. *)
Definition fdiv (a b : float64) : float64 :=
  match a, b with
  | NaN, _ | _, NaN => NaN
  | Fin x, Fin y =>
      if Req_dec_T y 0 then signed_inf (Rsign x) else Fin (x / y)
  | Fin _, PInf | Fin _, NInf => Fin 0
  | PInf, Fin y => if Rlt_dec y 0 then NInf else PInf
  | NInf, Fin y => if Rlt_dec y 0 then PInf else NInf
  | PInf, PInf | PInf, NInf | NInf, PInf | NInf, NInf => NaN
  end.

Definition fsqrt (a : float64) : float64 :=
  match a with
  | Fin x => if Rlt_dec x 0 then NaN else Fin (sqrt x)
  | PInf => PInf
  | NInf | NaN => NaN
  end.

(** [s ** 2] *)
Definition fsquare (a : float64) : float64 := fmul a a.

(* ================================================================= *)
(** ** Tables *)

(** A table is an ordered collection of named columns.  [DataFrame] is an
    input table; the table a function returns has [float64] cells. *)
Definition Frame (A : Type) : Type := list (string * list A).
Definition DataFrame : Type := Frame R.

Definition columns {A : Type} (df : Frame A) : list string := map fst df.

Fixpoint get_column {A : Type} (df : Frame A) (name : string) : option (list A) :=
  match df with
  | [] => None
  | (n, c) :: rest => if String.eqb n name then Some c else get_column rest name
  end.

(** [name in df.columns] *)
Definition has_column {A : Type} (df : Frame A) (name : string) : bool :=
  existsb (String.eqb name) (columns df).

(** [df[name]] *)
Definition getitem {A : Type} (df : Frame A) (name : string) : result (list A) :=
  match get_column df name with
  | Some c => Ok c
  | None => Raise (KeyError name)
  end.

(** The number of rows: the length of the first column. *)
Definition nrows {A : Type} (df : Frame A) : nat :=
  match df with
  | [] => 0%nat
  | (_, c) :: _ => length c
  end.

(* ================================================================= *)
(** ** Series arithmetic (pandas and numpy, as the code uses them) *)

Definition sum_R (l : list R) : R := fold_right Rplus 0 l.

(** Elementwise product of two series of one table (same index). *)
Fixpoint series_mul (a b : list float64) : list float64 :=
  match a, b with
  | x :: a', y :: b' => fmul x y :: series_mul a' b'
  | _, _ => []
  end.

(** [np.sum] of a pandas series is the series' own [sum]: missing values count
    as zero, and the sum of no value is zero. *)
Definition nan_to_zero (a : float64) : float64 :=
  match a with NaN => Fin 0 | _ => a end.

Definition np_sum (s : list float64) : float64 :=
  fold_left (fun acc a => fadd acc (nan_to_zero a)) s (Fin 0).

(* ================================================================= *)
(** ** error_weighted_average.py *)

Definition weights_of (errors : list R) : list float64 :=
  map (fun e => fdiv (Fin 1) (fsquare (Fin e))) errors.

Definition weighted_average_with_error
    (df : DataFrame) (property_col error_col : string)
  : result (float64 * float64) :=
  errors <- getitem df error_col ;;
  let weights := weights_of errors in
  property <- getitem df property_col ;;
  let weighted_avg :=
    fdiv (np_sum (series_mul (map Fin property) weights)) (np_sum weights) in
  let weighted_avg_error := fsqrt (fdiv (Fin 1) (np_sum weights)) in
  Ok (weighted_avg, weighted_avg_error).

(** What the specification calls the weight of a row, and its two sums. *)
Definition weight (e : R) : R := 1 / e ^ 2.




(** A weight of the function is a positive number or [+inf]. *)
Definition fin_or_pinf (a : float64) : Prop :=
  match a with Fin _ | PInf => True | NInf | NaN => False end.


(* ================================================================= *)
(** ** aggregate_dataframe.py *)

Definition suffixes : list string := ["+"; "-"].

Definition base_columns : list string :=
  ["Smax"; "Smax2"; "Smax3"; "Smax4"; "M2Total"; "M2Prime"; "nBonds"].

(** The names the two nested loops of the function run through, in order. *)
Definition signed_columns : list string :=
  flat_map (fun base => map (fun suffix => base ++ suffix) suffixes) base_columns.

(** *** pandas: group-by, mean and standard deviation *)

(** The keys of the groups: the distinct values of the key column, ascending
    ([groupby] sorts the group keys). *)
Fixpoint insert_key (k : R) (l : list R) : list R :=
  match l with
  | [] => [k]
  | h :: t =>
      if Rlt_dec k h then k :: l
      else if Rlt_dec h k then h :: insert_key k t
      else l
  end.

Definition group_keys (keys : list R) : list R := fold_right insert_key [] keys.

(** The values of a column in the rows whose key is [k], in row order. *)
Fixpoint group_values (keys values : list R) (k : R) : list R :=
  match keys, values with
  | key :: keys', v :: values' =>
      if Req_dec_T key k then v :: group_values keys' values' k
      else group_values keys' values' k
  | _, _ => []
  end.

(** ['mean'] *)
Definition mean (g : list R) : float64 :=
  fdiv (Fin (sum_R g)) (Fin (INR (length g))).

(** The variance with [ddof] delta degrees of freedom: missing when the group
    has no more than [ddof] values. *)
Definition var (ddof : nat) (g : list R) : float64 :=
  let n := length g in
  if (n <=? ddof)%nat then NaN
  else
    let m := sum_R g / INR n in
    Fin (sum_R (map (fun v => (v - m) ^ 2) g) / INR (n - ddof)).

(** ['std']: pandas takes [ddof = 1]. *)
Definition std (g : list R) : float64 := fsqrt (var 1 g).

(** [df[names]]: the listed columns, in the listed order. *)
Fixpoint select {A : Type} (df : Frame A) (names : list string) : result (Frame A) :=
  match names with
  | [] => Ok []
  | n :: names' =>
      c <- getitem df n ;;
      rest <- select df names' ;;
      Ok ((n, c) :: rest)
  end.

(** The result of [groupby(by)[agg_cols].agg(['mean', 'std'])]: the group keys
    as the index, and one column per pair (column, statistic). *)
Record Aggregated : Type := mkAggregated {
  index_name : string;
  index : list R;
  agg_columns : list ((string * string) * list float64)
}.

Definition aggregate_column (keys idx : list R) (entry : string * list R)
  : list ((string * string) * list float64) :=
  let (col, values) := entry in
  [ ((col, "mean"), map (fun k => mean (group_values keys values k)) idx);
    ((col, "std"), map (fun k => std (group_values keys values k)) idx) ].

Definition groupby_agg_mean_std (df : DataFrame) (by_ : string) (agg_cols : list string)
  : result Aggregated :=
  keys <- getitem df by_ ;;
  selected <- select df agg_cols ;;
  let idx := group_keys keys in
  Ok {| index_name := by_;
        index := idx;
        agg_columns := flat_map (aggregate_column keys idx) selected |}.

(** [df.rename(columns={old: new})] *)
Definition rename_column {A : Type} (old new : string) (df : Frame A) : Frame A :=
  map (fun entry => (if String.eqb (fst entry) old then new else fst entry, snd entry)) df.

(** [reset_index]: the index becomes the first column. *)
Definition reset_index (name : string) (idx : list R) (df : Frame float64)
  : result (Frame float64) :=
  if has_column df name
  then Raise (ValueError ("cannot insert " ++ name ++ ", already exists"))
  else Ok ((name, map Fin idx) :: df).

(** *** The function *)

(** The name given to the pair (column, statistic) when the columns are
    flattened. *)
Definition flat_name (label : string * string) : string :=
  let (col, stat) := label in
  if String.eqb stat "mean" then "avg_" ++ col
  else if String.eqb stat "std" then "std_" ++ col
  else col.

(** [for base in base_columns: for suffix in suffixes: col = f"{base}{suffix}"],
    collecting what [body col] appends. *)
Definition for_each_signed_column {A : Type} (body : string -> list A) : list A :=
  flat_map (fun base => flat_map (fun suffix => body (base ++ suffix)) suffixes)
    base_columns.

Definition transform_and_select_columns_dynamic (df : DataFrame)
  : result (Frame float64) :=
  let agg_cols :=
    "prob" :: for_each_signed_column
                (fun col => if has_column df col then [col] else []) in
  agg_results <- groupby_agg_mean_std df "idx" agg_cols ;;
  let new_columns := map (fun c => flat_name (fst c)) (agg_columns agg_results) in
  let flat := combine new_columns (map snd (agg_columns agg_results)) in
  let renamed :=
    if has_column flat "avg_prob" then rename_column "avg_prob" "prob" flat
    else flat in
  with_idx <- reset_index (index_name agg_results) (index agg_results) renamed ;;
  let column_order :=
    "idx" :: "prob"
    :: for_each_signed_column
         (fun col =>
            if has_column with_idx ("avg_" ++ col)
            then ["avg_" ++ col; "std_" ++ col]
            else []) in
  select with_idx column_order.

(** The arithmetic mean and the sample standard deviation the specification
    speaks of. *)
Definition arithmetic_mean (g : list R) : R := sum_R g / INR (length g).

Definition sample_deviation (g : list R) : R :=
  sqrt (sum_R (map (fun v => (v - arithmetic_mean g) ^ 2) g) / (INR (length g) - 1)).

(** The statistics of one column, per group, in the order of the group keys. *)
Definition group_means (keys values : list R) : list float64 :=
  map (fun k => mean (group_values keys values k)) (group_keys keys).

Definition group_stds (keys values : list R) : list float64 :=
  map (fun k => std (group_values keys values k)) (group_keys keys).

Definition column_or_empty (df : DataFrame) (name : string) : list R :=
  match get_column df name with
  | Some c => c
  | None => []
  end.

(** The two output columns of the input column [c]. *)
Definition statistics_columns (df : DataFrame) (keys : list R) (c : string)
  : Frame float64 :=
  [ ("avg_" ++ c, group_means keys (column_or_empty df c));
    ("std_" ++ c, group_stds keys (column_or_empty df c)) ].

(* ================================================================= *)
(** ** compute_max.py *)

(** *** pandas: positions in a series *)

(** [len(x)] *)
Definition len {A : Type} (x : list A) : Z := Z.of_nat (length x).

(** The position of the first occurrence of the greatest value, scanning from
    position [i] with the best value [best] found at [best_i]. *)
Fixpoint argmax_from (best : R) (best_i i : nat) (l : list R) : nat :=
  match l with
  | [] => best_i
  | v :: l' =>
      if Rlt_dec best v then argmax_from v i (S i) l'
      else argmax_from best best_i (S i) l'
  end.

(** [y.argmax()] *)
Definition argmax (y : list R) : result Z :=
  match y with
  | [] => Raise (ValueError "attempt to get argmax of an empty sequence")
  | v :: l => Ok (Z.of_nat (argmax_from v 0 1 l))
  end.

(** [y.max()] and [y.min()] of a series; the NaN of the empty series is not
    modelled, the code reaches neither with one. *)
Definition series_max (y : list R) : R :=
  match y with
  | [] => 0
  | v :: l => fold_left Rmax l v
  end.

Definition series_min (y : list R) : R :=
  match y with
  | [] => 0
  | v :: l => fold_left Rmin l v
  end.

(** [x.iloc[i]]: a negative position counts from the end. *)
Definition iloc (x : list R) (i : Z) : result R :=
  let j := (if i <? 0 then i + len x else i)%Z in
  if ((0 <=? j) && (j <? len x))%Z
  then Ok (nth (Z.to_nat j) x 0)
  else Raise (IndexError "single positional indexer is out-of-bounds").

(** A bound of a slice of a sequence of [n] items: a negative bound counts
    from the end, and every bound is clipped to the sequence. *)
Definition slice_bound (n i : Z) : Z :=
  (if i <? 0 then Z.max 0 (i + n) else Z.min i n)%Z.

(** [x.iloc[start:stop]] *)
Definition iloc_slice (x : list R) (start stop : Z) : list R :=
  let lo := slice_bound (len x) start in
  let hi := slice_bound (len x) stop in
  firstn (Z.to_nat (hi - lo)) (skipn (Z.to_nat lo) x).

(** *** numpy: polynomials *)

(** The two numerical routines of numpy the function rests on: the
    least-squares solver behind [np.polyfit], which returns the coefficients of
    the fitted polynomial of the given degree, highest power first, and the
    root finder [np.roots], which returns complex numbers. *)
Definition complex : Type := (R * R)%type.

Record NumPy : Type := mkNumPy {
  lstsq : list R -> list R -> nat -> list R;
  roots : list R -> list complex
}.

(** [np.polyfit(x, y, deg)] checks its arguments before it solves; too few
    points for the degree only draw a RankWarning, which is no exception. *)
Definition polyfit (np : NumPy) (x y : list R) (deg : Z) : result (list R) :=
  if (deg <? 0)%Z then Raise (ValueError "expected deg >= 0")
  else
    match x with
    | [] => Raise (TypeError "expected non-empty vector for x")
    | _ :: _ =>
        if (length x =? length y)%nat then Ok (lstsq np x y (Z.to_nat deg))
        else Raise (TypeError "expected x and y to have same length")
    end.

Fixpoint trim_zeros (c : list R) : list R :=
  match c with
  | [] => []
  | a :: c' => if Req_dec_T a 0 then trim_zeros c' else c
  end.

(** [np.poly1d(c)]: leading zeros are dropped, and the zero polynomial is [[0]]. *)
Definition poly1d (c : list R) : list R :=
  match trim_zeros c with
  | [] => [0]
  | t => t
  end.

(** [p(x)], by Horner's rule. *)
Definition polyval (p : list R) (x : R) : R :=
  fold_left (fun acc c => acc * x + c) p 0.

(** The coefficients of the derivative: each coefficient times its power. *)
Fixpoint polyder_coefficients (p : list R) : list R :=
  match p with
  | [] => []
  | c :: p' =>
      match p' with
      | [] => []
      | _ :: _ => INR (length p') * c :: polyder_coefficients p'
      end
  end.

(** [np.polyder(p)] of a [poly1d] is a [poly1d]. *)
Definition polyder (p : list R) : list R := poly1d (polyder_coefficients p).

(** [np.isreal(z)] *)
Definition isreal (z : complex) : bool :=
  if Req_dec_T (snd z) 0 then true else false.

(** *** The function *)

Record Results : Type := mkResults {
  empirical_max_x : R;
  empirical_max_y : R;
  poly_max_x : option R;
  poly_max_y : option R;
  error_x : option R;
  error_y : option R;
  RMSE : option R;
  warnings : list string
}.

Definition set_RMSE (r : Results) (v : R) : Results :=
  mkResults (empirical_max_x r) (empirical_max_y r) (poly_max_x r) (poly_max_y r)
    (error_x r) (error_y r) (Some v) (warnings r).

Definition set_poly_max (r : Results) (p : R * R) : Results :=
  mkResults (empirical_max_x r) (empirical_max_y r) (Some (fst p)) (Some (snd p))
    (error_x r) (error_y r) (RMSE r) (warnings r).

Definition set_errors (r : Results) (ex ey : R) : Results :=
  mkResults (empirical_max_x r) (empirical_max_y r) (poly_max_x r) (poly_max_y r)
    (Some ex) (Some ey) (RMSE r) (warnings r).

Definition append_warning (r : Results) (w : string) : Results :=
  mkResults (empirical_max_x r) (empirical_max_y r) (poly_max_x r) (poly_max_y r)
    (error_x r) (error_y r) (RMSE r) (warnings r ++ [w])%list.

(** [max(points, key=...)] of a non-empty list: the first of the items of
    greatest key. *)
Fixpoint max_by {A : Type} (key : A -> R) (best : A) (l : list A) : A :=
  match l with
  | [] => best
  | a :: l' =>
      if Rlt_dec (key best) (key a) then max_by key a l' else max_by key best l'
  end.

(** [a <= v <= b] *)
Definition between (a v b : R) : bool :=
  if Rle_dec a v then (if Rle_dec v b then true else false) else false.

Fixpoint squared_residuals (y y_fit : list R) : list R :=
  match y, y_fit with
  | a :: y', b :: y_fit' => (a - b) ^ 2 :: squared_residuals y' y_fit'
  | _, _ => []
  end.

(** What the function has computed when it reaches the choice of the
    maximum (lines 20 to 57 of the source). *)
Record Analysis : Type := mkAnalysis {
  idx_of_max : Z;
  x_window : list R;
  y_window : list R;
  poly_func : list R;
  dydx : list R;
  valid_points : list (R * R);
  results : Results
}.

Definition analyse (np : NumPy) (x y : list R) (offset order : Z) : result Analysis :=
  idx_of_max <- argmax y ;;
  empirical_max_x <- iloc x idx_of_max ;;
  let results :=
    mkResults empirical_max_x (series_max y) None None None None None [] in
  let start := Z.max 0 (idx_of_max - offset) in
  let end_ := Z.min (len x) (idx_of_max + offset + 1) in
  let x_window := iloc_slice x start end_ in
  let y_window := iloc_slice y start end_ in
  coefficients <- polyfit np x_window y_window order ;;
  let poly_func := poly1d coefficients in
  let y_fit := map (polyval poly_func) x_window in
  let results :=
    set_RMSE results
      (sqrt (arithmetic_mean (squared_residuals y_window y_fit))) in
  let dydx := polyder poly_func in
  let critical_points := roots np dydx in
  let real_critical_points := map fst (filter isreal critical_points) in
  let valid_points :=
    map (fun x_c => (x_c, polyval poly_func x_c))
      (filter (fun x_c => between (series_min x_window) x_c (series_max x_window))
         real_critical_points) in
  Ok (mkAnalysis idx_of_max x_window y_window poly_func dydx valid_points results).

Definition no_maximum_warning : string := "No valid maxima found in polynomial fit".

Definition compute_max (np : NumPy) (x y : list R) (offset order : Z) : result Results :=
  a <- analyse np x y offset order ;;
  match valid_points a with
  | p :: rest =>
      let results := set_poly_max (results a) (max_by snd p rest) in
      Ok (set_errors results
            (Rabs (empirical_max_x results - fst (max_by snd p rest)))
            (Rabs (empirical_max_y results - snd (max_by snd p rest))))
  | [] => Ok (append_warning (results a) no_maximum_warning)
  end.

(** A critical point the function accepts: a root of the derivative with no
    imaginary part, whose real part lies in the window, bounds included. *)
Definition valid_critical_point (np : NumPy) (a : Analysis) (x_c : R) : Prop :=
  exists z : complex,
    In z (roots np (dydx a)) /\ snd z = 0 /\ fst z = x_c
    /\ series_min (x_window a) <= x_c <= series_max (x_window a).

(** The items of [l] at the positions [s], ..., [e - 1]. *)
Definition index_window (l : list R) (s e : nat) : list R :=
  map (fun j => nth j l 0) (seq s (e - s)).

(** *** numpy in exact arithmetic *)

(** The sum of the squared residuals of the polynomial [c] on the points. *)
Definition sum_squared_error (x y c : list R) : R :=
  sum_R (squared_residuals y (map (polyval c) x)).

(** [c] holds the coefficients of a least-squares polynomial of degree [deg]. *)
Definition least_squares (x y : list R) (deg : nat) (c : list R) : Prop :=
  length c = S deg
  /\ forall c', length c' = S deg ->
                sum_squared_error x y c <= sum_squared_error x y c'.

Definition Cadd (u v : complex) : complex := (fst u + fst v, snd u + snd v).
Definition Csub (u v : complex) : complex := (fst u - fst v, snd u - snd v).
Definition Cmul (u v : complex) : complex :=
  (fst u * fst v - snd u * snd v, fst u * snd v + snd u * fst v).

Definition Cpolyval (p : list R) (z : complex) : complex :=
  fold_left (fun acc c => Cadd (Cmul acc z) (c, 0)) p (0, 0).

Definition leading_coefficient (p : list R) : R :=
  match trim_zeros p with
  | [] => 0
  | a :: _ => a
  end.

(** [zs] lists the complex roots of [p], each as often as its multiplicity:
    as many as the degree of [p], and [p] is its leading coefficient times the
    product of the [z - r]. *)
Definition all_roots (p : list R) (zs : list complex) : Prop :=
  length zs = pred (length (trim_zeros p))
  /\ forall z,
       Cpolyval p z
       = Cmul (leading_coefficient p, 0)
           (fold_right (fun r acc => Cmul (Csub z r) acc) (1, 0) zs).

(** The two routines without rounding: any least-squares solution, and the
    roots. *)
Definition exact_lstsq (x y : list R) (deg : nat) : list R :=
  epsilon (inhabits (repeat 0 (S deg))) (least_squares x y deg).

Definition exact_roots (p : list R) : list complex :=
  epsilon (inhabits []) (all_roots p).

Definition numpy : NumPy := mkNumPy exact_lstsq exact_roots.

(** The cell of column [name] in row [i]. *)
Definition cell {A : Type} (df : Frame A) (name : string) (i : nat) : option A :=
  match get_column df name with
  | Some c => nth_error c i
  | None => None
  end.

(** ** Tables of the examples *)

(** The example of the specification for the weighted average. *)
Definition two_measurements : DataFrame :=
  [("property", [10; 12]); ("error", [1; 1])].

Definition zero_error_table : DataFrame :=
  [("property", [10; 12]); ("error", [1; 0])].

(** Samples of the parabola [y = -(x - 3)^2 + 5], of a rising line and of a
    falling line. *)
Definition parabola_x : list R := [2; 3; 4].
Definition parabola_y : list R := [4; 5; 4].

Definition rising_x : list R := [1; 2; 3].
Definition rising_y : list R := [1; 2; 3].


(** The example of the docstring of [transform_and_select_columns_dynamic]. *)
Definition docstring_table : DataFrame :=
  [ ("idx", [1; 1; 2; 2]);
    ("prob", [0.1; 0.3; 0.5; 0.7]);
    ("Smax+", [10; 20; 30; 40]);
    ("nBonds-", [2; 4; 6; 8]) ].

(** Further tables and samples. *)
Definition negative_error_table : DataFrame :=
  [("property", [10; 12]); ("error", [-1; 1])].





(** The table of the docstring with its columns in another order and one
    column more. *)
Definition docstring_table_with_label : DataFrame :=
  [ ("label", [7; 7; 7; 7]);
    ("nBonds-", [2; 4; 6; 8]);
    ("prob", [0.1; 0.3; 0.5; 0.7]);
    ("idx", [1; 1; 2; 2]);
    ("Smax+", [10; 20; 30; 40]) ].

Definition distinct_keys_table : DataFrame :=
  [ ("idx", [3; 1; 2]); ("prob", [0.3; 0.1; 0.2]); ("Smax+", [30; 10; 20]) ].




(* ================================================================= *)
(** * Properties *)

Ltac Rdecide1 :=
  match goal with
  | |- context [Rlt_dec ?a ?b] => destruct (Rlt_dec a b); try (exfalso; lra)
  | |- context [Rle_dec ?a ?b] => destruct (Rle_dec a b); try (exfalso; lra)
  | |- context [Req_dec_T ?a ?b] => destruct (Req_dec_T a b); try (exfalso; lra)
  end.

Ltac Rdecide := repeat Rdecide1.

Section ResultFacts.
Context {A : Type}.

Lemma raises_Ok (a : A) : ~ raises (Ok a).
Proof. intros [e He]; discriminate. Qed.

Lemma raises_Raise (e : exception) : raises (@Raise A e).
Proof. now exists e. Qed.

Lemma Ok_inj (a b : A) : Ok a = Ok b -> a = b.
Proof. now intros [= ->]. Qed.

Lemma returns_not_raises (c : result A) : returns c <-> ~ raises c.
Proof.
  destruct c as [a|e]; split.
  - intros _. apply raises_Ok.
  - intros _. now exists a.
  - intros [a Ha]; discriminate.
  - intros H. destruct H. apply raises_Raise.
Qed.
End ResultFacts.

(** ** Tables *)


Lemma has_column_get {A : Type} (df : Frame A) name :
  has_column df name = true <-> exists c, get_column df name = Some c.
Proof.
  unfold has_column, columns.
  induction df as [|[n c'] rest IH]; simpl.
  - split; [discriminate | intros [c H]; discriminate].
  - rewrite String.eqb_sym. destruct (String.eqb n name); simpl.
    + split; eauto.
    + exact IH.
Qed.


(** ** Sums of computed numbers *)



(** ** error_weighted_average.py *)


Lemma weight_of_nonzero (e : R) :
  e <> 0 -> fdiv (Fin 1) (fsquare (Fin e)) = Fin (weight e).
Proof.
  intros He. unfold weight, fsquare, fmul, fdiv.
  destruct (Req_dec_T (e * e) 0) as [Z|_].
  - exfalso. nra.
  - do 2 f_equal. simpl. lra.
Qed.








(** *** Zero errors and the empty table *)

Lemma weight_of_zero : fdiv (Fin 1) (fsquare (Fin 0)) = PInf.
Proof.
  unfold fsquare, fmul, fdiv, Rsign.
  destruct (Req_dec_T (0 * 0) 0) as [_|N]; [|exfalso; lra].
  destruct (Rlt_dec 0 1) as [_|N]; [reflexivity|exfalso; lra].
Qed.

Lemma weights_of_fin_or_pinf (errors : list R) :
  Forall fin_or_pinf (weights_of errors).
Proof.
  unfold weights_of. apply Forall_forall. intros w Hw.
  apply in_map_iff in Hw. destruct Hw as [e [<- _]].
  destruct (Req_dec_T e 0) as [->|He].
  - rewrite weight_of_zero. exact I.
  - rewrite weight_of_nonzero by assumption. exact I.
Qed.

Lemma weights_of_zero_In (errors : list R) :
  In 0 errors -> In PInf (weights_of errors).
Proof.
  intros H. unfold weights_of. apply in_map_iff. exists 0. split; [|assumption].
  exact weight_of_zero.
Qed.

Lemma sum_reaches_PInf (l : list float64) (acc : float64) :
  Forall fin_or_pinf l -> fin_or_pinf acc ->
  acc = PInf \/ In PInf l ->
  fold_left (fun acc x => fadd acc (nan_to_zero x)) l acc = PInf.
Proof.
  revert acc. induction l as [|x l IH]; intros acc Hl Hacc Hinf; simpl.
  - destruct Hinf as [H|[]]. exact H.
  - inversion Hl as [|? ? Hx Hl']; subst.
    apply IH; [assumption| |].
    + destruct acc, x; simpl in *; tauto.
    + destruct Hinf as [->|[->|Hin]].
      * left. destruct x; simpl in *; tauto.
      * left. destruct acc; simpl in *; tauto.
      * right. assumption.
Qed.

Lemma weight_sum_zero_error (errors : list R) :
  In 0 errors -> np_sum (weights_of errors) = PInf.
Proof.
  intros H. unfold np_sum. apply sum_reaches_PInf.
  - apply weights_of_fin_or_pinf.
  - exact I.
  - right. now apply weights_of_zero_In.
Qed.

Lemma fdiv_by_PInf (a : float64) : fdiv a PInf = NaN \/ fdiv a PInf = Fin 0.
Proof. destruct a; simpl; auto. Qed.

Lemma fsqrt_zero : fsqrt (Fin 0) = Fin 0.
Proof.
  unfold fsqrt. destruct (Rlt_dec 0 0) as [N|_]; [exfalso; lra|].
  now rewrite sqrt_0.
Qed.

Lemma weighted_average_zero_error df property_col error_col values errors :
  get_column df property_col = Some values ->
  get_column df error_col = Some errors ->
  In 0 errors ->
  exists a, weighted_average_with_error df property_col error_col = Ok (a, Fin 0)
            /\ (a = NaN \/ a = Fin 0).
Proof.
  intros Hv He Hz.
  unfold weighted_average_with_error, getitem. rewrite He, Hv. simpl.
  rewrite (weight_sum_zero_error _ Hz).
  eexists. split.
  - f_equal. f_equal. simpl. exact fsqrt_zero.
  - apply fdiv_by_PInf.
Qed.

Lemma weighted_average_empty df property_col error_col values :
  get_column df property_col = Some values ->
  get_column df error_col = Some [] ->
  weighted_average_with_error df property_col error_col = Ok (NaN, PInf).
Proof.
  intros Hv He.
  unfold weighted_average_with_error, getitem. rewrite He, Hv. simpl.
  replace (series_mul (map Fin values) []) with (@nil float64)
    by (destruct values; reflexivity).
  unfold np_sum. simpl. unfold Rsign.
  destruct (Req_dec_T 0 0) as [_|N]; [|exfalso; lra].
  destruct (Rlt_dec 0 0) as [N|_]; [exfalso; lra|].
  destruct (Rlt_dec 0 1) as [_|N]; [|exfalso; lra].
  reflexivity.
Qed.

(** C7, as stated, fails: a table with a zero in its error column is averaged
    without any exception; the function returns (NaN, 0). *)
Lemma weighted_average_zero_error_returns :
  get_column zero_error_table "error" = Some [1; 0]
  /\ In 0 [1; 0]
  /\ weighted_average_with_error zero_error_table "property" "error"
     = Ok (NaN, Fin 0)
  /\ ~ raises (weighted_average_with_error zero_error_table "property" "error").
Proof.
  assert (E : weighted_average_with_error zero_error_table "property" "error"
              = Ok (NaN, Fin 0)).
  { unfold weighted_average_with_error, getitem.
    change (get_column zero_error_table "error") with (Some [1; 0]).
    change (get_column zero_error_table "property") with (Some [10; 12]).
    unfold bind, weights_of. cbn [map].
    rewrite weight_of_zero, (weight_of_nonzero 1) by lra.
    unfold np_sum. cbn [series_mul fold_left nan_to_zero fmul fadd].
    unfold Rsign.
    destruct (Rlt_dec 0 12) as [_|N]; [|exfalso; lra].
    cbn [signed_inf nan_to_zero fadd fdiv]. now rewrite fsqrt_zero. }
  repeat split.
  - simpl. auto.
  - exact E.
  - rewrite E. apply raises_Ok.
Qed.

Lemma weighted_average_raises_iff df property_col error_col :
  raises (weighted_average_with_error df property_col error_col)
  <-> get_column df property_col = None \/ get_column df error_col = None.
Proof.
  unfold weighted_average_with_error, getitem.
  destruct (get_column df error_col) as [errors|]; cbn [bind].
  - destruct (get_column df property_col) as [values|]; cbn [bind].
    + split; [intros H; now apply raises_Ok in H|intros [H|H]; discriminate].
    + split; [now left|intros _; apply raises_Raise].
  - split; [now right|intros _; apply raises_Raise].
Qed.

(** C7, amended: the function raises nothing but the KeyError of a missing
    column.  A zero error value makes its weight infinite: the function returns
    0 as the error, and NaN or 0 as the average.  An empty table gives
    (NaN, +inf). *)
Theorem weighted_average_with_error_no_exception :
  forall (df : DataFrame) (property_col error_col : string),
    (raises (weighted_average_with_error df property_col error_col)
     <-> get_column df property_col = None \/ get_column df error_col = None)
    /\ forall values errors : list R,
        get_column df property_col = Some values ->
        get_column df error_col = Some errors ->
        (In 0 errors ->
         exists a,
           weighted_average_with_error df property_col error_col = Ok (a, Fin 0)
           /\ (a = NaN \/ a = Fin 0))
        /\ (errors = [] ->
            weighted_average_with_error df property_col error_col
            = Ok (NaN, PInf)).
Proof.
  intros df pc ec. split; [apply weighted_average_raises_iff|].
  intros values errors Hv He. split.
  - intros Hz. eapply weighted_average_zero_error; eassumption.
  - intros ->. eapply weighted_average_empty; eassumption.
Qed.

Lemma weighted_average_with_error_no_exception_witness :
  ~ raises (weighted_average_with_error zero_error_table "property" "error")
  /\ exists a,
      weighted_average_with_error zero_error_table "property" "error"
      = Ok (a, Fin 0)
      /\ (a = NaN \/ a = Fin 0).
Proof.
  destruct (weighted_average_with_error_no_exception
              zero_error_table "property" "error") as [Hr Hz].
  split.
  - rewrite Hr. intros [H|H]; discriminate.
  - apply (Hz [10; 12] [1; 0] eq_refl eq_refl). simpl. auto.
Defined.

(* ================================================================= *)
(** ** aggregate_dataframe.py *)

(** *** The loops over base names and suffixes *)

Lemma signed_columns_list :
  signed_columns
  = ["Smax+"; "Smax-"; "Smax2+"; "Smax2-"; "Smax3+"; "Smax3-"; "Smax4+"; "Smax4-";
     "M2Total+"; "M2Total-"; "M2Prime+"; "M2Prime-"; "nBonds+"; "nBonds-"].
Proof. reflexivity. Qed.

Lemma for_each_signed_column_flat_map {A : Type} (body : string -> list A) :
  for_each_signed_column body = flat_map body signed_columns.
Proof.
  unfold for_each_signed_column, signed_columns, base_columns, suffixes.
  cbn [flat_map map app String.append].
  repeat rewrite <- app_assoc. repeat rewrite app_nil_r. reflexivity.
Qed.

Lemma flat_map_filter {A : Type} (p : A -> bool) (l : list A) :
  flat_map (fun x => if p x then [x] else []) l = filter p l.
Proof.
  induction l as [|x l IH]; simpl; [reflexivity|].
  rewrite IH. now destruct (p x).
Qed.

Lemma flat_map_agree {A B : Type} (f g : A -> list B) (l : list A) :
  (forall x, In x l -> f x = g x) -> flat_map f l = flat_map g l.
Proof.
  induction l as [|x l IH]; intros H; simpl; [reflexivity|].
  rewrite (H x (or_introl eq_refl)), IH; [reflexivity|].
  intros y Hy. apply H. now right.
Qed.

Lemma flat_map_if_filter {A B : Type} (p : A -> bool) (f : A -> list B) (l : list A) :
  flat_map (fun x => if p x then f x else []) l = flat_map f (filter p l).
Proof.
  induction l as [|x l IH]; simpl; [reflexivity|].
  rewrite IH. now destruct (p x).
Qed.

(** *** Group keys *)

Lemma insert_key_In (k x : R) (l : list R) :
  In x (insert_key k l) <-> x = k \/ In x l.
Proof.
  induction l as [|h t IH]; simpl.
  - intuition.
  - destruct (Rlt_dec k h) as [|Hkh]; simpl; [intuition|].
    destruct (Rlt_dec h k) as [|Hhk]; simpl.
    + rewrite IH. intuition.
    + assert (h = k) by lra. subst. intuition.
Qed.

Lemma insert_key_sorted (k : R) (l : list R) :
  StronglySorted Rlt l -> StronglySorted Rlt (insert_key k l).
Proof.
  induction 1 as [|h t Hs IH Hh]; simpl.
  - constructor; constructor.
  - destruct (Rlt_dec k h) as [Hkh|Hkh].
    + constructor; [constructor; assumption|].
      constructor; [assumption|].
      eapply Forall_impl; [|exact Hh]. simpl. intros; lra.
    + destruct (Rlt_dec h k) as [Hhk|Hhk].
      * constructor; [assumption|].
        apply Forall_forall. intros x Hx. apply insert_key_In in Hx.
        destruct Hx as [->|Hx]; [assumption|].
        rewrite Forall_forall in Hh. auto.
      * constructor; assumption.
Qed.

Lemma group_keys_In (keys : list R) (k : R) :
  In k (group_keys keys) <-> In k keys.
Proof.
  unfold group_keys. induction keys as [|h t IH]; simpl; [tauto|].
  rewrite insert_key_In, IH. intuition.
Qed.

Lemma group_keys_sorted (keys : list R) : StronglySorted Rlt (group_keys keys).
Proof.
  unfold group_keys. induction keys as [|h t IH]; simpl.
  - constructor.
  - now apply insert_key_sorted.
Qed.

Lemma sorted_NoDup (l : list R) : StronglySorted Rlt l -> NoDup l.
Proof.
  induction 1 as [|h t Hs IH Hh]; constructor; [|assumption].
  intros Hin. rewrite Forall_forall in Hh. specialize (Hh _ Hin). lra.
Qed.

Lemma group_keys_NoDup (keys : list R) : NoDup (group_keys keys).
Proof. apply sorted_NoDup, group_keys_sorted. Qed.

(** *** Groups and their statistics *)


Lemma INR_length_pos {A : Type} (g : list A) : g <> [] -> 0 < INR (length g).
Proof.
  intros H. destruct g as [|x g]; [congruence|].
  apply lt_0_INR. simpl. lia.
Qed.

Lemma mean_nonempty (g : list R) : g <> [] -> mean g = Fin (arithmetic_mean g).
Proof.
  intros H. pose proof (INR_length_pos g H).
  unfold mean, arithmetic_mean, fdiv.
  destruct (Req_dec_T (INR (length g)) 0); [lra|reflexivity].
Qed.

Lemma sum_squares_nonneg (m : R) (g : list R) :
  0 <= sum_R (map (fun v => (v - m) ^ 2) g).
Proof.
  induction g as [|x g IH]; [simpl; lra|].
  change (0 <= (x - m) ^ 2 + sum_R (map (fun v => (v - m) ^ 2) g)).
  pose proof (pow2_ge_0 (x - m)). lra.
Qed.

Lemma std_single (g : list R) : length g = 1%nat -> std g = NaN.
Proof. intros H. unfold std, var. rewrite H. reflexivity. Qed.

Lemma std_sample (g : list R) :
  (2 <= length g)%nat -> std g = Fin (sample_deviation g).
Proof.
  intros H. unfold std, var, sample_deviation, arithmetic_mean.
  destruct (Nat.leb_spec (length g) 1) as [|_]; [lia|].
  rewrite minus_INR by lia. simpl INR.
  assert (0 < INR (length g) - 1).
  { apply le_INR in H. simpl in H. lra. }
  unfold fsqrt.
  destruct (Rlt_dec _ 0) as [N|_]; [|reflexivity].
  exfalso.
  pose proof (sum_squares_nonneg (sum_R g / INR (length g)) g) as Hs.
  assert (0 < / (INR (length g) - 1)) by now apply Rinv_0_lt_compat.
  unfold Rdiv in N. nra.
Qed.

(** *** The pipeline, step by step *)

Lemma column_or_empty_get (df : DataFrame) (name : string) :
  has_column df name = true ->
  get_column df name = Some (column_or_empty df name).
Proof.
  intros H. apply has_column_get in H. destruct H as [c Hc].
  unfold column_or_empty. now rewrite Hc.
Qed.

Lemma select_present (df : DataFrame) (names : list string) :
  Forall (fun n => has_column df n = true) names ->
  select df names = Ok (map (fun n => (n, column_or_empty df n)) names).
Proof.
  induction 1 as [|n names Hn _ IH]; simpl; [reflexivity|].
  unfold getitem. rewrite (column_or_empty_get _ _ Hn). simpl.
  now rewrite IH.
Qed.

Lemma flatten_aggregated (df : DataFrame) (keys : list R) (names : list string) :
  let aggregated :=
    flat_map (aggregate_column keys (group_keys keys))
      (map (fun n => (n, column_or_empty df n)) names) in
  combine (map (fun c => flat_name (fst c)) aggregated) (map snd aggregated)
  = flat_map (statistics_columns df keys) names.
Proof.
  induction names as [|n names IH]; simpl in *; [reflexivity|].
  now rewrite IH.
Qed.

Lemma eqb_avg_avg (a b : string) :
  String.eqb ("avg_" ++ a) ("avg_" ++ b) = String.eqb a b.
Proof. reflexivity. Qed.

Lemma eqb_std_avg (a b : string) : String.eqb ("std_" ++ a) ("avg_" ++ b) = false.
Proof. reflexivity. Qed.

Lemma rename_statistics_columns (df : DataFrame) (keys : list R) (names : list string) :
  Forall (fun n => n <> "prob") names ->
  rename_column "avg_prob" "prob" (flat_map (statistics_columns df keys) names)
  = flat_map (statistics_columns df keys) names.
Proof.
  unfold rename_column.
  induction 1 as [|n names Hn _ IH]; [reflexivity|].
  cbn [flat_map statistics_columns app map fst snd]. rewrite IH.
  change "avg_prob" with ("avg_" ++ "prob").
  rewrite eqb_avg_avg, eqb_std_avg.
  destruct (String.eqb n "prob") eqn:E; [|reflexivity].
  apply String.eqb_eq in E. contradiction.
Qed.

Lemma statistics_columns_no_idx (df : DataFrame) (keys : list R) (names : list string) :
  has_column (flat_map (statistics_columns df keys) names) "idx" = false.
Proof.
  unfold has_column, columns. induction names as [|n names IH]; simpl; [reflexivity|].
  exact IH.
Qed.

Lemma existsb_eqb_filter (p : string -> bool) (c : string) (l : list string) :
  existsb (String.eqb c) (filter p l) = p c && existsb (String.eqb c) l.
Proof.
  induction l as [|x l IH]; simpl.
  - now rewrite andb_false_r.
  - destruct (p x) eqn:Px; simpl; rewrite IH.
    + destruct (String.eqb c x) eqn:E; simpl.
      * apply String.eqb_eq in E. subst. now rewrite Px.
      * reflexivity.
    + destruct (String.eqb c x) eqn:E; simpl.
      * apply String.eqb_eq in E. subst. now rewrite Px.
      * reflexivity.
Qed.

Lemma existsb_eqb_In (c : string) (l : list string) :
  In c l -> existsb (String.eqb c) l = true.
Proof.
  intros H. apply existsb_exists. exists c. split; [assumption|apply String.eqb_refl].
Qed.

Lemma has_avg_column (df : DataFrame) (keys : list R) (names : list string) (c : string) :
  has_column (flat_map (statistics_columns df keys) names) ("avg_" ++ c)
  = existsb (String.eqb c) names.
Proof.
  unfold has_column, columns. induction names as [|n names IH]; simpl; [reflexivity|].
  simpl in IH. rewrite IH. reflexivity.
Qed.

Lemma get_statistics_columns (df : DataFrame) (keys : list R) (names : list string)
      (c : string) :
  In c names ->
  get_column (flat_map (statistics_columns df keys) names) ("avg_" ++ c)
  = Some (group_means keys (column_or_empty df c))
  /\ get_column (flat_map (statistics_columns df keys) names) ("std_" ++ c)
     = Some (group_stds keys (column_or_empty df c)).
Proof.
  induction names as [|n names IH]; simpl; [tauto|].
  intros Hin. destruct (String.eqb n c) eqn:E.
  - apply String.eqb_eq in E. subst. split; reflexivity.
  - apply IH. destruct Hin as [->|Hin]; [|assumption].
    rewrite String.eqb_refl in E. discriminate.
Qed.

Lemma select_statistics_columns (F : Frame float64) (df : DataFrame) (keys : list R)
      (names : list string) :
  (forall c, In c names ->
     get_column F ("avg_" ++ c) = Some (group_means keys (column_or_empty df c))
     /\ get_column F ("std_" ++ c) = Some (group_stds keys (column_or_empty df c))) ->
  select F (flat_map (fun c => ["avg_" ++ c; "std_" ++ c]) names)
  = Ok (flat_map (statistics_columns df keys) names).
Proof.
  induction names as [|n names IH]; intros H; [reflexivity|].
  destruct (H n (or_introl eq_refl)) as [Ha Hs].
  cbn [flat_map app select]. unfold getitem. rewrite Ha, Hs.
  cbn [bind]. rewrite IH; [reflexivity|].
  intros c Hc. apply H. now right.
Qed.

Lemma signed_columns_not_prob : Forall (fun n => n <> "prob") signed_columns.
Proof. rewrite signed_columns_list. repeat constructor; discriminate. Qed.

Lemma present_columns (df : DataFrame) :
  Forall (fun n => has_column df n = true) (filter (has_column df) signed_columns).
Proof. apply Forall_forall. intros n Hn. now apply filter_In in Hn. Qed.

Lemma present_columns_not_prob (df : DataFrame) :
  Forall (fun n => n <> "prob") (filter (has_column df) signed_columns).
Proof.
  apply Forall_forall. intros n Hn. apply filter_In in Hn.
  pose proof signed_columns_not_prob as H. rewrite Forall_forall in H.
  now apply H.
Qed.

(** The function in closed form, on a table that has the two required
    columns. *)
Lemma transform_closed_form (df : DataFrame) (keys probs : list R) :
  get_column df "idx" = Some keys ->
  get_column df "prob" = Some probs ->
  transform_and_select_columns_dynamic df
  = Ok (("idx", map Fin (group_keys keys))
          :: ("prob", group_means keys probs)
          :: flat_map (statistics_columns df keys)
               (filter (has_column df) signed_columns)).
Proof.
  intros Hidx Hprob.
  assert (Hhas : has_column df "prob" = true) by (apply has_column_get; eauto).
  assert (Hcol : column_or_empty df "prob" = probs)
    by (unfold column_or_empty; now rewrite Hprob).
  unfold transform_and_select_columns_dynamic.
  rewrite (for_each_signed_column_flat_map
             (fun col => if has_column df col then [col] else [])), flat_map_filter.
  set (present := filter (has_column df) signed_columns).
  unfold groupby_agg_mean_std, getitem at 1. rewrite Hidx. cbn [bind].
  rewrite (select_present df ("prob" :: present))
    by (constructor; [exact Hhas|apply present_columns]).
  cbn [bind agg_columns index index_name].
  rewrite (flatten_aggregated df keys ("prob" :: present)).
  cbn [flat_map statistics_columns app]. rewrite Hcol.
  assert (Hren :
    (if has_column
          (("avg_" ++ "prob", group_means keys probs)
             :: ("std_" ++ "prob", group_stds keys probs)
             :: flat_map (statistics_columns df keys) present) "avg_prob"
     then rename_column "avg_prob" "prob"
            (("avg_" ++ "prob", group_means keys probs)
               :: ("std_" ++ "prob", group_stds keys probs)
               :: flat_map (statistics_columns df keys) present)
     else ("avg_" ++ "prob", group_means keys probs)
            :: ("std_" ++ "prob", group_stds keys probs)
            :: flat_map (statistics_columns df keys) present)
    = ("prob", group_means keys probs)
        :: ("std_prob", group_stds keys probs)
        :: flat_map (statistics_columns df keys) present).
  { change (has_column _ "avg_prob") with true. cbv iota.
    change (rename_column "avg_prob" "prob" (?a :: ?b :: ?rest))
      with (("prob", snd a) :: ("std_prob", snd b)
              :: rename_column "avg_prob" "prob" rest).
    rewrite rename_statistics_columns by apply present_columns_not_prob.
    reflexivity. }
  rewrite Hren. clear Hren.
  unfold reset_index.
  change (has_column (?a :: ?b :: ?rest) "idx") with (has_column rest "idx").
  rewrite statistics_columns_no_idx. cbn [bind].
  rewrite for_each_signed_column_flat_map.
  set (with_idx := ("idx", map Fin (group_keys keys)) :: _).
  assert (Horder :
    flat_map (fun col => if has_column with_idx ("avg_" ++ col)
                         then ["avg_" ++ col; "std_" ++ col] else [])
      signed_columns
    = flat_map (fun c => ["avg_" ++ c; "std_" ++ c]) present).
  { unfold present. rewrite <- flat_map_if_filter.
    apply flat_map_agree. intros c Hc.
    replace (has_column with_idx ("avg_" ++ c)) with (has_column df c);
      [reflexivity|].
    unfold with_idx.
    change (has_column (?a :: ?b :: ?c0 :: ?rest) ("avg_" ++ c))
      with (has_column rest ("avg_" ++ c)).
    rewrite has_avg_column. fold present. unfold present.
    rewrite existsb_eqb_filter, (existsb_eqb_In _ _ Hc).
    now rewrite andb_true_r. }
  rewrite Horder. clear Horder.
  cbn [select]. unfold getitem at 1 2.
  change (get_column with_idx "idx") with (Some (map Fin (group_keys keys))).
  change (get_column with_idx "prob") with (Some (group_means keys probs)).
  cbn [bind].
  rewrite (select_statistics_columns with_idx df keys present); [reflexivity|].
  intros c Hc. unfold with_idx.
  change (get_column (?a :: ?b :: ?c0 :: ?rest) ("avg_" ++ c))
    with (get_column rest ("avg_" ++ c)).
  change (get_column (?a :: ?b :: ?c0 :: ?rest) ("std_" ++ c))
    with (if String.eqb "prob" c then Some (snd c0)
          else get_column rest ("std_" ++ c)).
  destruct (String.eqb "prob" c) eqn:E.
  - apply String.eqb_eq in E. subst c.
    pose proof (present_columns_not_prob df) as H.
    rewrite Forall_forall in H. now destruct (H _ Hc).
  - now apply get_statistics_columns.
Qed.

Lemma transform_missing_idx (df : DataFrame) :
  get_column df "idx" = None ->
  transform_and_select_columns_dynamic df = Raise (KeyError "idx").
Proof.
  intros H. unfold transform_and_select_columns_dynamic, groupby_agg_mean_std, getitem.
  now rewrite H.
Qed.

Lemma transform_missing_prob (df : DataFrame) (keys : list R) :
  get_column df "idx" = Some keys ->
  get_column df "prob" = None ->
  transform_and_select_columns_dynamic df = Raise (KeyError "prob").
Proof.
  intros Hidx Hprob.
  unfold transform_and_select_columns_dynamic, groupby_agg_mean_std, getitem at 1.
  rewrite Hidx. cbn [bind select]. unfold getitem at 1. now rewrite Hprob.
Qed.

Lemma has_column_false {A : Type} (df : Frame A) (name : string) :
  has_column df name = false <-> get_column df name = None.
Proof.
  pose proof (has_column_get df name) as H.
  destruct (has_column df name), (get_column df name) as [c|]; split; intros E;
    try reflexivity; try discriminate.
  - destruct (proj1 H eq_refl) as [c Hc]. discriminate.
  - assert (false = true) by (apply H; eauto). discriminate.
Qed.

(** C9: the aggregation raises exactly when the [idx] column or the [prob]
    column is absent; which of the signed-suffix columns are present has no
    part in it, so an absent optional column never makes it fail. *)
Theorem transform_raises_iff_required_column_missing :
  forall df : DataFrame,
    raises (transform_and_select_columns_dynamic df)
    <-> has_column df "idx" = false \/ has_column df "prob" = false.
Proof.
  intros df. rewrite !has_column_false.
  destruct (get_column df "idx") as [keys|] eqn:Hidx.
  - destruct (get_column df "prob") as [probs|] eqn:Hprob.
    + rewrite (transform_closed_form df keys probs Hidx Hprob). split.
      * intros H. now apply raises_Ok in H.
      * intros [H|H]; discriminate.
    + rewrite (transform_missing_prob df keys Hidx Hprob). split.
      * now right.
      * intros _. apply raises_Raise.
  - rewrite (transform_missing_idx df Hidx). split.
    + now left.
    + intros _. apply raises_Raise.
Qed.

Lemma transform_returns_inv (df : DataFrame) (out : Frame float64) :
  transform_and_select_columns_dynamic df = Ok out ->
  exists keys probs,
    get_column df "idx" = Some keys /\ get_column df "prob" = Some probs.
Proof.
  intros H.
  destruct (get_column df "idx") as [keys|] eqn:Hidx.
  - destruct (get_column df "prob") as [probs|] eqn:Hprob; [eauto|].
    rewrite (transform_missing_prob df keys Hidx Hprob) in H. discriminate.
  - rewrite (transform_missing_idx df Hidx) in H. discriminate.
Qed.

Lemma columns_statistics (df : DataFrame) (keys : list R) (names : list string) :
  columns (flat_map (statistics_columns df keys) names)
  = flat_map (fun c => ["avg_" ++ c; "std_" ++ c]) names.
Proof.
  unfold columns. induction names as [|n names IH]; [reflexivity|].
  cbn [flat_map statistics_columns app map fst]. now rewrite IH.
Qed.

(** C8: the columns of the output are [idx], [prob], and then, for each base
    name of the fixed list in its order and each suffix ([+] before [-]), the
    pair [avg_<base><suffix>], [std_<base><suffix>] when the input has the
    column [<base><suffix>]; no other column of the input reaches the output. *)
Theorem output_column_order :
  forall (df : DataFrame) (out : Frame float64),
    transform_and_select_columns_dynamic df = Ok out ->
    columns out
    = "idx" :: "prob"
      :: flat_map (fun c => if has_column df c then ["avg_" ++ c; "std_" ++ c] else [])
           ["Smax+"; "Smax-"; "Smax2+"; "Smax2-"; "Smax3+"; "Smax3-";
            "Smax4+"; "Smax4-"; "M2Total+"; "M2Total-"; "M2Prime+"; "M2Prime-";
            "nBonds+"; "nBonds-"]
    /\ (forall n, In n (columns out) ->
          n = "idx" \/ n = "prob"
          \/ exists base suffix,
               In base base_columns /\ In suffix suffixes
               /\ has_column df (base ++ suffix) = true
               /\ (n = "avg_" ++ base ++ suffix \/ n = "std_" ++ base ++ suffix)).
Proof.
  intros df out Hout.
  destruct (transform_returns_inv df out Hout) as [keys [probs [Hidx Hprob]]].
  rewrite (transform_closed_form df keys probs Hidx Hprob) in Hout.
  apply Ok_inj in Hout. subst out.
  assert (Hcols :
    columns (("idx", map Fin (group_keys keys)) :: ("prob", group_means keys probs)
               :: flat_map (statistics_columns df keys)
                    (filter (has_column df) signed_columns))
    = "idx" :: "prob"
      :: flat_map (fun c => if has_column df c then ["avg_" ++ c; "std_" ++ c] else [])
           signed_columns).
  { change (columns (?a :: ?b :: ?rest)) with (fst a :: fst b :: columns rest).
    cbn [fst]. now rewrite columns_statistics, <- flat_map_if_filter. }
  split; [exact Hcols|].
  intros n Hn. rewrite Hcols in Hn.
  destruct Hn as [<-|[<-|Hn]]; [now left|now right; left|].
  right; right. apply in_flat_map in Hn. destruct Hn as [c [Hc Hn]].
  unfold signed_columns in Hc. apply in_flat_map in Hc.
  destruct Hc as [base [Hbase Hc]]. apply in_map_iff in Hc.
  destruct Hc as [suffix [<- Hsuffix]].
  exists base, suffix.
  destruct (has_column df (base ++ suffix)); [|destruct Hn].
  repeat split; try assumption.
  destruct Hn as [<-|[<-|[]]]; [now left|now right].
Qed.

Lemma output_column_order_witness :
  exists out,
    transform_and_select_columns_dynamic docstring_table = Ok out
    /\ columns out
       = ["idx"; "prob"; "avg_Smax+"; "std_Smax+"; "avg_nBonds-"; "std_nBonds-"].
Proof.
  pose proof (transform_closed_form docstring_table [1; 1; 2; 2] [0.1; 0.3; 0.5; 0.7]
                eq_refl eq_refl) as H.
  eexists. split; [exact H|].
  exact (proj1 (output_column_order docstring_table _ H)).
Defined.

(** *** Rows *)

(** C10: the rows of the output are in ascending order of [idx]: the [idx]
    column of the output lists the distinct keys of the input, each strictly
    below the ones after it. *)
Theorem output_rows_ascending :
  forall (df : DataFrame) (out : Frame float64) (keys : list R),
    transform_and_select_columns_dynamic df = Ok out ->
    get_column df "idx" = Some keys ->
    exists idx,
      get_column out "idx" = Some (map Fin idx)
      /\ nrows out = length idx
      /\ (forall k, In k idx <-> In k keys)
      /\ StronglySorted Rlt idx.
Proof.
  intros df out keys Hout Hidx.
  destruct (transform_returns_inv df out Hout) as [keys' [probs [Hidx' Hprob]]].
  rewrite Hidx in Hidx'. injection Hidx' as <-.
  rewrite (transform_closed_form df keys probs Hidx Hprob) in Hout.
  apply Ok_inj in Hout. subst out.
  exists (group_keys keys). repeat split.
  - cbn [nrows]. now rewrite length_map.
  - apply group_keys_In.
  - apply group_keys_In.
  - apply group_keys_sorted.
Qed.

Lemma output_rows_ascending_witness :
  exists out idx,
    transform_and_select_columns_dynamic docstring_table = Ok out
    /\ get_column out "idx" = Some (map Fin idx)
    /\ StronglySorted Rlt idx.
Proof.
  pose proof (transform_closed_form docstring_table [1; 1; 2; 2] [0.1; 0.3; 0.5; 0.7]
                eq_refl eq_refl) as H.
  destruct (output_rows_ascending docstring_table _ [1; 1; 2; 2] H eq_refl)
    as [idx [Hcol [_ [_ Hsorted]]]].
  eexists. exists idx. split; [exact H|]. split; assumption.
Defined.

(** *** Statistics *)

Lemma output_statistics_columns (df : DataFrame) (keys : list R)
      (kcol pcol : list float64) (c : string) :
  In c signed_columns -> has_column df c = true ->
  let out := ("idx", kcol) :: ("prob", pcol)
               :: flat_map (statistics_columns df keys)
                    (filter (has_column df) signed_columns) in
  get_column out ("avg_" ++ c) = Some (group_means keys (column_or_empty df c))
  /\ get_column out ("std_" ++ c) = Some (group_stds keys (column_or_empty df c)).
Proof.
  intros Hc Hhas out. unfold out.
  change (get_column (?a :: ?b :: ?rest) ("avg_" ++ c))
    with (get_column rest ("avg_" ++ c)).
  change (get_column (?a :: ?b :: ?rest) ("std_" ++ c))
    with (get_column rest ("std_" ++ c)).
  apply get_statistics_columns. apply filter_In. now split.
Qed.






(** *** The example of the docstring *)

Lemma arithmetic_mean_pair (a b : R) : arithmetic_mean [a; b] = (a + b) / 2.
Proof. unfold arithmetic_mean. simpl. field. Qed.

(** The closed form of the sample standard deviation of two values. *)
Lemma sample_deviation_pair (a b : R) :
  sample_deviation [a; b] = Rabs (a - b) / sqrt 2.
Proof.
  unfold sample_deviation. rewrite arithmetic_mean_pair. simpl.
  replace (((a - (a + b) / 2) * ((a - (a + b) / 2) * 1)
            + ((b - (a + b) / 2) * ((b - (a + b) / 2) * 1) + 0)) / (1 + 1 - 1))
    with ((a - b) * (a - b) / 2) by field.
  rewrite sqrt_div_alt by lra.
  fold (Rsqr (a - b)). now rewrite sqrt_Rsqr_abs.
Qed.

Lemma docstring_group_keys : group_keys [1; 1; 2; 2] = [1; 2].
Proof.
  unfold group_keys. repeat (cbn [fold_right insert_key]; Rdecide1). reflexivity.
Qed.

Lemma docstring_groups (v1 v2 v3 v4 : R) :
  group_values [1; 1; 2; 2] [v1; v2; v3; v4] 1 = [v1; v2]
  /\ group_values [1; 1; 2; 2] [v1; v2; v3; v4] 2 = [v3; v4].
Proof. cbn [group_values]. Rdecide. split; reflexivity. Qed.

Lemma docstring_statistics (v1 v2 v3 v4 : R) :
  group_means [1; 1; 2; 2] [v1; v2; v3; v4]
  = [Fin ((v1 + v2) / 2); Fin ((v3 + v4) / 2)]
  /\ group_stds [1; 1; 2; 2] [v1; v2; v3; v4]
     = [Fin (Rabs (v1 - v2) / sqrt 2); Fin (Rabs (v3 - v4) / sqrt 2)].
Proof.
  unfold group_means, group_stds. rewrite docstring_group_keys. cbn [map].
  destruct (docstring_groups v1 v2 v3 v4) as [-> ->].
  rewrite !mean_nonempty by discriminate.
  rewrite !std_sample by (simpl; lia).
  now rewrite !arithmetic_mean_pair, !sample_deviation_pair.
Qed.

Example docstring_example :
  transform_and_select_columns_dynamic docstring_table
  = Ok [ ("idx", [Fin 1; Fin 2]);
         ("prob", [Fin 0.2; Fin 0.6]);
         ("avg_Smax+", [Fin 15; Fin 35]);
         ("std_Smax+", [Fin (10 / sqrt 2); Fin (10 / sqrt 2)]);
         ("avg_nBonds-", [Fin 3; Fin 7]);
         ("std_nBonds-", [Fin (2 / sqrt 2); Fin (2 / sqrt 2)]) ].
Proof.
  rewrite (transform_closed_form docstring_table [1; 1; 2; 2] [0.1; 0.3; 0.5; 0.7]
             eq_refl eq_refl).
  change (filter (has_column docstring_table) signed_columns)
    with ["Smax+"; "nBonds-"].
  cbn [flat_map statistics_columns app].
  change (column_or_empty docstring_table "Smax+") with [10; 20; 30; 40].
  change (column_or_empty docstring_table "nBonds-") with [2; 4; 6; 8].
  rewrite docstring_group_keys.
  destruct (docstring_statistics 0.1 0.3 0.5 0.7) as [-> _].
  destruct (docstring_statistics 10 20 30 40) as [-> ->].
  destruct (docstring_statistics 2 4 6 8) as [-> ->].
  replace (Rabs (10 - 20)) with 10 by (rewrite Rabs_left; lra).
  replace (Rabs (30 - 40)) with 10 by (rewrite Rabs_left; lra).
  replace (Rabs (2 - 4)) with 2 by (rewrite Rabs_left; lra).
  replace (Rabs (6 - 8)) with 2 by (rewrite Rabs_left; lra).
  repeat (f_equal; try lra).
Qed.

(* ================================================================= *)
(** ** compute_max.py *)

(** *** The position of the maximum *)



Lemma fold_Rmax_spec (l : list R) (v : R) :
  (forall a, In a (v :: l) -> a <= fold_left Rmax l v)
  /\ In (fold_left Rmax l v) (v :: l).
Proof.
  revert v. induction l as [|a l IH]; intros v; cbn [fold_left].
  - split; [|now left]. intros b [<-|[]]. lra.
  - destruct (IH (Rmax v a)) as [Hge Hin]. split.
    + intros b Hb.
      assert (Hm : Rmax v a <= fold_left Rmax l (Rmax v a)) by (apply Hge; now left).
      destruct Hb as [<-|[<-|Hb]].
      * pose proof (Rmax_l v a). lra.
      * pose proof (Rmax_r v a). lra.
      * apply Hge. now right.
    + destruct Hin as [Hin|Hin]; [|now right; right].
      rewrite <- Hin. unfold Rmax. destruct (Rle_dec v a); [right; now left|now left].
Qed.

Lemma fold_Rmin_spec (l : list R) (v : R) :
  (forall a, In a (v :: l) -> fold_left Rmin l v <= a)
  /\ In (fold_left Rmin l v) (v :: l).
Proof.
  revert v. induction l as [|a l IH]; intros v; cbn [fold_left].
  - split; [|now left]. intros b [<-|[]]. lra.
  - destruct (IH (Rmin v a)) as [Hge Hin]. split.
    + intros b Hb.
      assert (Hm : fold_left Rmin l (Rmin v a) <= Rmin v a) by (apply Hge; now left).
      destruct Hb as [<-|[<-|Hb]].
      * pose proof (Rmin_l v a). lra.
      * pose proof (Rmin_r v a). lra.
      * apply Hge. now right.
    + destruct Hin as [Hin|Hin]; [|now right; right].
      rewrite <- Hin. unfold Rmin. destruct (Rle_dec v a); [now left|right; now left].
Qed.


(** *** Slices *)

Lemma skipn_nth_cons (l : list R) (s : nat) :
  (s < length l)%nat -> skipn s l = nth s l 0 :: skipn (S s) l.
Proof.
  revert s. induction l as [|a l IH]; intros s Hs; [simpl in Hs; lia|].
  destruct s as [|s]; [reflexivity|].
  cbn [skipn nth]. rewrite IH by (simpl in Hs; lia). reflexivity.
Qed.

Lemma firstn_skipn_window (l : list R) (n s : nat) :
  (s + n <= length l)%nat ->
  firstn n (skipn s l) = map (fun j => nth j l 0) (seq s n).
Proof.
  revert s. induction n as [|n IH]; intros s Hs; [reflexivity|].
  rewrite skipn_nth_cons by lia. cbn [firstn seq map].
  rewrite IH by lia. reflexivity.
Qed.

(** Within the bounds of the sequence a slice is the window of its positions. *)
Lemma iloc_slice_window (l : list R) (s e : nat) :
  (s <= e <= length l)%nat ->
  iloc_slice l (Z.of_nat s) (Z.of_nat e) = index_window l s e.
Proof.
  intros H. unfold iloc_slice, index_window, slice_bound, len.
  destruct (Z.ltb_spec (Z.of_nat s) 0); [lia|].
  destruct (Z.ltb_spec (Z.of_nat e) 0); [lia|].
  rewrite !Z.min_l by lia.
  replace (Z.to_nat (Z.of_nat e - Z.of_nat s)) with (e - s)%nat by lia.
  rewrite Nat2Z.id. apply firstn_skipn_window. lia.
Qed.

Lemma index_window_length (l : list R) (s e : nat) :
  length (index_window l s e) = (e - s)%nat.
Proof. unfold index_window. now rewrite length_map, length_seq. Qed.

Lemma nth_map_seq (f : nat -> R) (n s k : nat) :
  (k < n)%nat -> nth k (map f (seq s n)) 0 = f (s + k)%nat.
Proof.
  revert s k. induction n as [|n IH]; intros s k Hk; [lia|].
  destruct k as [|k]; cbn [seq map nth].
  - now rewrite Nat.add_0_r.
  - rewrite IH by lia. f_equal. lia.
Qed.

Lemma index_window_nth (l : list R) (s e j : nat) :
  (s <= j < e)%nat -> nth (j - s) (index_window l s e) 0 = nth j l 0.
Proof.
  intros H. unfold index_window. rewrite nth_map_seq by lia. f_equal. lia.
Qed.

(** The bounds the function computes, for a maximum at position [i] of a
    sequence of [n] items. *)
Lemma window_bounds (n i : nat) (offset : Z) :
  (i < n)%nat -> (0 <= offset)%Z ->
  let s := Z.to_nat (Z.max 0 (Z.of_nat i - offset)) in
  let e := Z.to_nat (Z.min (Z.of_nat n) (Z.of_nat i + offset + 1)) in
  (s <= i < e)%nat /\ (e <= n)%nat
  /\ Z.max 0 (Z.of_nat i - offset) = Z.of_nat s
  /\ Z.min (Z.of_nat n) (Z.of_nat i + offset + 1) = Z.of_nat e.
Proof. intros Hi Ho s e. unfold s, e. lia. Qed.

Lemma iloc_in_range (x : list R) (i : nat) :
  (i < length x)%nat -> iloc x (Z.of_nat i) = Ok (nth i x 0).
Proof.
  intros Hi. unfold iloc, len.
  destruct (Z.ltb_spec (Z.of_nat i) 0); [lia|].
  destruct (Z.leb_spec 0 (Z.of_nat i)); [|lia].
  destruct (Z.ltb_spec (Z.of_nat i) (Z.of_nat (length x))); [|lia].
  cbn [andb]. now rewrite Nat2Z.id.
Qed.



(** *** The steps of the function *)

Lemma analyse_steps (np : NumPy) (x y : list R) (offset order idx : Z)
      (emp_x : R) (coefficients : list R) :
  argmax y = Ok idx ->
  iloc x idx = Ok emp_x ->
  let xw := iloc_slice x (Z.max 0 (idx - offset)) (Z.min (len x) (idx + offset + 1)) in
  let yw := iloc_slice y (Z.max 0 (idx - offset)) (Z.min (len x) (idx + offset + 1)) in
  polyfit np xw yw order = Ok coefficients ->
  exists a,
    analyse np x y offset order = Ok a
    /\ idx_of_max a = idx
    /\ x_window a = xw
    /\ y_window a = yw
    /\ poly_func a = poly1d coefficients
    /\ dydx a = polyder (poly1d coefficients)
    /\ valid_points a
       = map (fun x_c => (x_c, polyval (poly1d coefficients) x_c))
           (filter (fun x_c => between (series_min xw) x_c (series_max xw))
              (map fst (filter isreal (roots np (polyder (poly1d coefficients))))))
    /\ results a
       = mkResults emp_x (series_max y) None None None None
           (Some (sqrt (arithmetic_mean
                          (squared_residuals yw
                             (map (polyval (poly1d coefficients)) xw)))))
           [].
Proof.
  intros Harg Hiloc xw yw Hfit.
  unfold analyse. rewrite Harg. cbn [bind]. rewrite Hiloc. cbn [bind].
  fold xw yw. rewrite Hfit. cbn [bind].
  eexists. split; [reflexivity|]. repeat split.
Qed.

Lemma analyse_raises_fit (np : NumPy) (x y : list R) (offset order idx : Z)
      (emp_x : R) (e : exception) :
  argmax y = Ok idx ->
  iloc x idx = Ok emp_x ->
  polyfit np
    (iloc_slice x (Z.max 0 (idx - offset)) (Z.min (len x) (idx + offset + 1)))
    (iloc_slice y (Z.max 0 (idx - offset)) (Z.min (len x) (idx + offset + 1)))
    order = Raise e ->
  compute_max np x y offset order = Raise e.
Proof.
  intros Harg Hiloc Hfit.
  unfold compute_max, analyse. rewrite Harg. cbn [bind]. rewrite Hiloc. cbn [bind].
  rewrite Hfit. reflexivity.
Qed.



(** *** Polynomials *)






Lemma polyder_coefficients_length (p : list R) :
  length (polyder_coefficients p) = pred (length p).
Proof.
  induction p as [|c p IH]; [reflexivity|].
  cbn [polyder_coefficients]. destruct p as [|d p]; [reflexivity|].
  cbn [length] in *. now rewrite IH.
Qed.




(** *** The choice of the maximum *)

Lemma max_by_spec {A : Type} (key : A -> R) (l : list A) (best : A) :
  In (max_by key best l) (best :: l)
  /\ forall a, In a (best :: l) -> key a <= key (max_by key best l).
Proof.
  revert best. induction l as [|b l IH]; intros best; cbn [max_by].
  - split; [now left|]. intros a [<-|[]]. lra.
  - destruct (Rlt_dec (key best) (key b)) as [Hlt|Hge].
    + destruct (IH b) as [Hin Hmax]. split.
      * now right.
      * intros a [<-|Ha]; [|now apply Hmax].
        assert (key b <= key (max_by key b l)) by (apply Hmax; now left). lra.
    + destruct (IH best) as [Hin Hmax]. split.
      * destruct Hin as [Hin|Hin]; [now left|now right; right].
      * intros a [<-|[<-|Ha]].
        -- apply Hmax. now left.
        -- assert (key best <= key (max_by key best l)) by (apply Hmax; now left).
           lra.
        -- apply Hmax. now right.
Qed.

Lemma isreal_true (z : complex) : isreal z = true <-> snd z = 0.
Proof. unfold isreal. destruct (Req_dec_T (snd z) 0); split; congruence. Qed.

Lemma between_true (a v b : R) : between a v b = true <-> a <= v <= b.
Proof.
  unfold between. destruct (Rle_dec a v), (Rle_dec v b); split;
    try congruence; try tauto; intros [? ?]; contradiction.
Qed.

Lemma analyse_inv (np : NumPy) (x y : list R) (offset order : Z) (a : Analysis) :
  analyse np x y offset order = Ok a ->
  dydx a = polyder (poly_func a)
  /\ valid_points a
     = map (fun x_c => (x_c, polyval (poly_func a) x_c))
         (filter (fun x_c => between (series_min (x_window a)) x_c
                               (series_max (x_window a)))
            (map fst (filter isreal (roots np (dydx a)))))
  /\ poly_max_x (results a) = None /\ poly_max_y (results a) = None
  /\ error_x (results a) = None /\ error_y (results a) = None
  /\ warnings (results a) = []
  /\ (exists rmse, RMSE (results a) = Some rmse)
  /\ x_window a <> [].
Proof.
  unfold analyse. intros H.
  destruct (argmax y) as [idx|]; [|discriminate]. cbn [bind] in H.
  destruct (iloc x idx) as [emp_x|]; [|discriminate]. cbn [bind] in H.
  match type of H with
  | context [polyfit np ?xw ?yw order] =>
      destruct (polyfit np xw yw order) as [coefficients|] eqn:Hfit
  end; [|discriminate].
  cbn [bind] in H. apply Ok_inj in H. subst a.
  cbn [dydx poly_func valid_points x_window results poly_max_x poly_max_y
         error_x error_y warnings RMSE set_RMSE].
  repeat split; try reflexivity; [eexists; reflexivity|].
  intros E. rewrite E in Hfit. unfold polyfit in Hfit.
  destruct (order <? 0)%Z; discriminate.
Qed.

Lemma valid_points_spec (np : NumPy) (x y : list R) (offset order : Z) (a : Analysis) :
  analyse np x y offset order = Ok a ->
  forall px py,
    In (px, py) (valid_points a)
    <-> valid_critical_point np a px /\ py = polyval (poly_func a) px.
Proof.
  intros Ha px py. destruct (analyse_inv _ _ _ _ _ _ Ha) as [_ [-> _]].
  rewrite in_map_iff. unfold valid_critical_point. split.
  - intros [x_c [E Hin]]. injection E as -> <-.
    apply filter_In in Hin. destruct Hin as [Hin Hb].
    apply between_true in Hb. apply in_map_iff in Hin.
    destruct Hin as [z [Hz Hin]]. apply filter_In in Hin.
    destruct Hin as [Hin Hr]. apply isreal_true in Hr.
    split; [|reflexivity]. exists z. auto.
  - intros [[z [Hin [Hr [Hz Hb]]]] ->]. exists px. split; [reflexivity|].
    apply filter_In. split; [|now apply between_true].
    apply in_map_iff. exists z. split; [assumption|].
    apply filter_In. split; [assumption|now apply isreal_true].
Qed.


(** C4: when no critical point is valid the function raises nothing: it returns
    the results with the one warning "No valid maxima found in polynomial fit"
    in the warnings list and with [poly_max_x], [poly_max_y], [error_x] and
    [error_y] still unset; the empirical maximum and the RMSE are kept. *)
Theorem no_valid_maximum_warning :
  forall (np : NumPy) (x y : list R) (offset order : Z) (a : Analysis),
    analyse np x y offset order = Ok a ->
    (forall x_c, ~ valid_critical_point np a x_c) ->
    exists r,
      compute_max np x y offset order = Ok r
      /\ warnings r = ["No valid maxima found in polynomial fit"]
      /\ poly_max_x r = None /\ poly_max_y r = None
      /\ error_x r = None /\ error_y r = None
      /\ empirical_max_x r = empirical_max_x (results a)
      /\ empirical_max_y r = empirical_max_y (results a)
      /\ RMSE r = RMSE (results a).
Proof.
  intros np x y offset order a Ha Hnone.
  pose proof (valid_points_spec np x y offset order a Ha) as Hvalid.
  destruct (analyse_inv np x y offset order a Ha)
    as [_ [_ [Hpx [Hpy [Hex [Hey [Hw _]]]]]]].
  unfold compute_max. rewrite Ha. cbn [bind].
  destruct (valid_points a) as [|[px py] rest] eqn:Hvp.
  - eexists. split; [reflexivity|].
    cbn [append_warning warnings poly_max_x poly_max_y error_x error_y
           empirical_max_x empirical_max_y RMSE].
    rewrite Hw. repeat split; assumption.
  - exfalso. apply (Hnone px). apply (Hvalid px py). now left.
Qed.

(** *** When the function raises *)








(* ================================================================= *)
(** ** numpy in exact arithmetic *)

Lemma squared_residuals_nonneg (y f : list R) :
  Forall (fun r => 0 <= r) (squared_residuals y f).
Proof.
  revert f. induction y as [|a y IH]; intros [|b f]; cbn [squared_residuals];
    constructor; [apply pow2_ge_0|apply IH].
Qed.

Lemma sum_R_nonneg (l : list R) : Forall (fun r => 0 <= r) l -> 0 <= sum_R l.
Proof.
  induction 1 as [|r l Hr _ IH]; [simpl; lra|].
  change (0 <= r + sum_R l). lra.
Qed.


Lemma sum_squared_error_nonneg (x y c : list R) : 0 <= sum_squared_error x y c.
Proof. apply sum_R_nonneg, squared_residuals_nonneg. Qed.

Lemma squared_residuals_zero (y f : list R) :
  length y = length f -> sum_R (squared_residuals y f) = 0 -> y = f.
Proof.
  revert f. induction y as [|a y IH]; intros [|b f] Hlen Hsum;
    try discriminate; [reflexivity|].
  change ((a - b) ^ 2 + sum_R (squared_residuals y f) = 0) in Hsum.
  pose proof (pow2_ge_0 (a - b)).
  pose proof (sum_R_nonneg _ (squared_residuals_nonneg y f)).
  assert (Hsq : (a - b) ^ 2 = 0) by lra.
  assert (Hab : a - b = 0).
  { simpl in Hsq. destruct (Rmult_integral _ _ Hsq) as [E|E]; [exact E|].
    destruct (Rmult_integral _ _ E) as [E'|E']; [exact E'|lra]. }
  f_equal; [lra|]. apply IH; [simpl in Hlen; lia|lra].
Qed.

(** A polynomial through all the points, the only one of its degree, is the
    least-squares solution. *)
Lemma exact_lstsq_interpolation (x y : list R) (deg : nat) (c0 : list R) :
  length c0 = S deg ->
  sum_squared_error x y c0 = 0 ->
  (forall c, length c = S deg -> sum_squared_error x y c = 0 -> c = c0) ->
  exact_lstsq x y deg = c0.
Proof.
  intros Hlen Hzero Hunique. unfold exact_lstsq.
  assert (Hex : exists c, least_squares x y deg c).
  { exists c0. split; [exact Hlen|]. intros c' _. rewrite Hzero.
    apply sum_squared_error_nonneg. }
  destruct (epsilon_spec (inhabits (repeat 0 (S deg))) _ Hex) as [Hl Hmin].
  apply Hunique; [exact Hl|].
  specialize (Hmin c0 Hlen). rewrite Hzero in Hmin.
  pose proof (sum_squared_error_nonneg x y
                (epsilon (inhabits (repeat 0 (S deg))) (least_squares x y deg))).
  lra.
Qed.

Lemma complex_eq (a b c d : R) : a = c -> b = d -> (a, b) = ((c, d) : complex).
Proof. now intros -> ->. Qed.

(** A constant has no root. *)
Lemma exact_roots_constant (c : R) : exact_roots [c] = [].
Proof.
  unfold exact_roots.
  assert (Hex : exists zs, all_roots [c] zs).
  { exists []. split.
    - cbn [trim_zeros]. now destruct (Req_dec_T c 0).
    - intros [zr zi]. unfold leading_coefficient, Cpolyval.
      cbn [fold_left fold_right trim_zeros].
      destruct (Req_dec_T c 0) as [->|_]; unfold Cadd, Cmul; cbn [fst snd];
        apply complex_eq; ring. }
  destruct (epsilon_spec (inhabits []) _ Hex) as [Hl _].
  apply length_zero_iff_nil. rewrite Hl. cbn [trim_zeros].
  now destruct (Req_dec_T c 0).
Qed.

(** The root of a polynomial of degree one. *)
Lemma exact_roots_linear (a b : R) :
  a <> 0 -> exact_roots [a; b] = [(- b / a, 0)].
Proof.
  intros Ha. unfold exact_roots.
  assert (Htrim : trim_zeros [a; b] = [a; b])
    by (cbn [trim_zeros]; now destruct (Req_dec_T a 0)).
  assert (Hex : exists zs, all_roots [a; b] zs).
  { exists [(- b / a, 0)]. split.
    - now rewrite Htrim.
    - intros [zr zi]. unfold leading_coefficient, Cpolyval. rewrite Htrim.
      cbn [fold_left fold_right]. unfold Cadd, Cmul, Csub; cbn [fst snd].
      apply complex_eq; field; exact Ha. }
  destruct (epsilon_spec (inhabits []) _ Hex) as [Hl Hroot].
  set (zs := epsilon (inhabits []) (all_roots [a; b])) in *.
  rewrite Htrim in Hl. cbn [length pred] in Hl.
  destruct zs as [|[wr wi] [|w zs]]; try discriminate.
  specialize (Hroot (wr, wi)).
  unfold leading_coefficient, Cpolyval in Hroot. rewrite Htrim in Hroot.
  cbn [fold_left fold_right] in Hroot.
  unfold Cadd, Cmul, Csub in Hroot; cbn [fst snd] in Hroot.
  injection Hroot as Hre Him.
  f_equal. apply complex_eq.
  - assert (a * wr + b = 0) by lra. field_simplify_eq; [lra|exact Ha].
  - assert (a * wi = 0) by lra.
    destruct (Rmult_integral _ _ H) as [Hz|Hz]; [contradiction|exact Hz].
Qed.

Lemma poly1d_leading (a : R) (p : list R) : a <> 0 -> poly1d (a :: p) = a :: p.
Proof.
  intros Ha. unfold poly1d. cbn [trim_zeros]. now destruct (Req_dec_T a 0).
Qed.

(* ================================================================= *)
(** ** compute_max.py on three samples *)

Lemma parabola_argmax : argmax parabola_y = Ok 1%Z.
Proof. unfold argmax, parabola_y. cbn [argmax_from]. Rdecide. reflexivity. Qed.

Lemma rising_argmax : argmax rising_y = Ok 2%Z.
Proof.
  unfold argmax, rising_y. repeat (cbn [argmax_from]; Rdecide1). reflexivity.
Qed.


Lemma parabola_fit : exact_lstsq [2; 3; 4] [4; 5; 4] 2 = [-1; 6; -4].
Proof.
  apply exact_lstsq_interpolation.
  - reflexivity.
  - unfold sum_squared_error, polyval. simpl. lra.
  - intros c Hlen Hzero.
    destruct c as [|c2 [|c1 [|c0 [|]]]]; try discriminate.
    apply squared_residuals_zero in Hzero; [|reflexivity].
    unfold polyval in Hzero. cbn [map fold_left] in Hzero.
    injection Hzero as H1 H2 H3.
    repeat f_equal; lra.
Qed.

Lemma parabola_polyder : polyder [-1; 6; -4] = [-2; 6].
Proof.
  unfold polyder. cbn [polyder_coefficients length].
  replace (INR 2 * -1) with (-2) by (simpl; lra).
  replace (INR 1 * 6) with 6 by (simpl; lra).
  apply poly1d_leading. lra.
Qed.

Lemma parabola_roots : exact_roots [-2; 6] = [(3, 0)].
Proof.
  rewrite exact_roots_linear by lra. do 2 f_equal. lra.
Qed.

Lemma parabola_window_bounds :
  series_min [2; 3; 4] = 2 /\ series_max [2; 3; 4] = 4.
Proof.
  unfold series_min, series_max. cbn [fold_left].
  rewrite (Rmin_left 2 3), (Rmin_left 2 4) by lra.
  rewrite (Rmax_right 2 3), (Rmax_right 3 4) by lra.
  split; reflexivity.
Qed.

Lemma parabola_analysis :
  exists a,
    analyse numpy parabola_x parabola_y 1 2 = Ok a
    /\ x_window a = [2; 3; 4]
    /\ poly_func a = [-1; 6; -4]
    /\ dydx a = [-2; 6]
    /\ valid_points a = [(3, 5)]
    /\ results a = mkResults 3 5 None None None None (Some 0) [].
Proof.
  assert (Hfit :
    polyfit numpy
      (iloc_slice parabola_x (Z.max 0 (1 - 1)) (Z.min (len parabola_x) (1 + 1 + 1)))
      (iloc_slice parabola_y (Z.max 0 (1 - 1)) (Z.min (len parabola_x) (1 + 1 + 1)))
      2 = Ok [-1; 6; -4]).
  { change (iloc_slice parabola_x _ _) with [2; 3; 4].
    change (iloc_slice parabola_y _ _) with [4; 5; 4].
    change (polyfit numpy [2; 3; 4] [4; 5; 4] 2)
      with (Ok (exact_lstsq [2; 3; 4] [4; 5; 4] 2)).
    now rewrite parabola_fit. }
  destruct (analyse_steps numpy parabola_x parabola_y 1 2 1%Z 3 [-1; 6; -4]
              parabola_argmax eq_refl Hfit)
    as [a [Ha [_ [Hxw [Hyw [Hp [Hd [Hvp Hres]]]]]]]].
  change (iloc_slice parabola_x _ _) with [2; 3; 4] in Hxw, Hvp, Hres.
  change (iloc_slice parabola_y _ _) with [4; 5; 4] in Hyw, Hres.
  rewrite (poly1d_leading (-1)) in Hp, Hd, Hvp, Hres by lra.
  rewrite parabola_polyder in Hd, Hvp.
  change (roots numpy [-2; 6]) with (exact_roots [-2; 6]) in Hvp.
  rewrite parabola_roots in Hvp.
  destruct parabola_window_bounds as [Hmin Hmax]. rewrite Hmin, Hmax in Hvp.
  assert (Hval : polyval [-1; 6; -4] 3 = 5) by (unfold polyval; simpl; lra).
  assert (Hreal : isreal (3, 0) = true) by now apply isreal_true.
  assert (Hbetween : between 2 3 4 = true) by (apply between_true; lra).
  cbn [filter map fst] in Hvp. rewrite Hreal in Hvp.
  cbn [filter map fst] in Hvp. rewrite Hbetween in Hvp.
  cbn [map] in Hvp. rewrite Hval in Hvp.
  exists a. repeat (split; [assumption|]).
  rewrite Hres.
  assert (Hfitted : map (polyval [-1; 6; -4]) [2; 3; 4] = [4; 5; 4]).
  { unfold polyval. cbn [map fold_left]. repeat f_equal; lra. }
  assert (Hmean : arithmetic_mean (squared_residuals [4; 5; 4] [4; 5; 4]) = 0).
  { unfold arithmetic_mean. simpl. lra. }
  assert (Hymax : series_max parabola_y = 5).
  { unfold series_max, parabola_y. cbn [fold_left].
    rewrite (Rmax_right 4 5), (Rmax_left 5 4) by lra. reflexivity. }
  now rewrite Hfitted, Hmean, sqrt_0, Hymax.
Qed.

(** The sample of the parabola: the fit finds its vertex. *)
Example parabola_example :
  compute_max numpy parabola_x parabola_y 1 2
  = Ok (mkResults 3 5 (Some 3) (Some 5) (Some 0) (Some 0) (Some 0) []).
Proof.
  destruct parabola_analysis as [a [Ha [_ [_ [_ [Hvp Hres]]]]]].
  unfold compute_max. rewrite Ha. cbn [bind]. rewrite Hvp, Hres.
  cbn [max_by set_poly_max set_errors fst snd empirical_max_x empirical_max_y
         poly_max_x poly_max_y error_x error_y RMSE warnings].
  replace (3 - 3) with 0 by lra. replace (5 - 5) with 0 by lra.
  now rewrite Rabs_R0.
Qed.

Lemma rising_fit : exact_lstsq [2; 3] [2; 3] 1 = [1; 0].
Proof.
  apply exact_lstsq_interpolation.
  - reflexivity.
  - unfold sum_squared_error, polyval. simpl. lra.
  - intros c Hlen Hzero.
    destruct c as [|c1 [|c0 [|]]]; try discriminate.
    apply squared_residuals_zero in Hzero; [|reflexivity].
    unfold polyval in Hzero. cbn [map fold_left] in Hzero.
    injection Hzero as H1 H2.
    repeat f_equal; lra.
Qed.

Lemma rising_polyder : polyder [1; 0] = [1].
Proof.
  unfold polyder. cbn [polyder_coefficients length].
  replace (INR 1 * 1) with 1 by (simpl; lra).
  apply poly1d_leading. lra.
Qed.

(** On the rising line the derivative of the fit has no root. *)
Lemma rising_analysis :
  exists a,
    analyse numpy rising_x rising_y 1 1 = Ok a
    /\ x_window a = [2; 3]
    /\ poly_func a = [1; 0]
    /\ valid_points a = [].
Proof.
  assert (Hfit :
    polyfit numpy
      (iloc_slice rising_x (Z.max 0 (2 - 1)) (Z.min (len rising_x) (2 + 1 + 1)))
      (iloc_slice rising_y (Z.max 0 (2 - 1)) (Z.min (len rising_x) (2 + 1 + 1)))
      1 = Ok [1; 0]).
  { change (iloc_slice rising_x _ _) with [2; 3].
    change (iloc_slice rising_y _ _) with [2; 3].
    change (polyfit numpy [2; 3] [2; 3] 1) with (Ok (exact_lstsq [2; 3] [2; 3] 1)).
    now rewrite rising_fit. }
  destruct (analyse_steps numpy rising_x rising_y 1 1 2%Z 3 [1; 0]
              rising_argmax eq_refl Hfit)
    as [a [Ha [_ [Hxw [_ [Hp [_ [Hvp _]]]]]]]].
  change (iloc_slice rising_x _ _) with [2; 3] in Hxw.
  rewrite (poly1d_leading 1) in Hp, Hvp by lra.
  rewrite rising_polyder in Hvp.
  change (roots numpy [1]) with (exact_roots [1]) in Hvp.
  rewrite exact_roots_constant in Hvp.
  exists a. repeat (split; [assumption|]). exact Hvp.
Qed.



Lemma no_valid_maximum_warning_witness :
  exists r,
    compute_max numpy rising_x rising_y 1 1 = Ok r
    /\ warnings r = ["No valid maxima found in polynomial fit"]
    /\ poly_max_x r = None /\ poly_max_y r = None
    /\ error_x r = None /\ error_y r = None.
Proof.
  destruct rising_analysis as [a [Ha [_ [_ Hvp]]]].
  destruct (no_valid_maximum_warning numpy rising_x rising_y 1 1 a Ha)
    as [r [Hr [Hw [Hpx [Hpy [Hex [Hey _]]]]]]].
  - intros x_c Hx_c.
    assert (Hin : In (x_c, polyval (poly_func a) x_c) (valid_points a)).
    { apply (valid_points_spec numpy rising_x rising_y 1 1 a Ha).
      split; [exact Hx_c|reflexivity]. }
    rewrite Hvp in Hin. destruct Hin.
  - exists r. repeat split; assumption.
Defined.



(* ================================================================= *)
(** * Further properties *)

(** ** error_weighted_average.py *)












Lemma Rabs_square (e : R) : Rabs e * Rabs e = e * e.
Proof. unfold Rabs. destruct (Rcase_abs e); ring. Qed.

Lemma weights_of_Rabs (errors : list R) :
  weights_of (map Rabs errors) = weights_of errors.
Proof.
  unfold weights_of. rewrite map_map. apply map_ext. intros e.
  unfold fsquare. cbn [fmul]. now rewrite Rabs_square.
Qed.

(** X3: the sign of an error is never looked at: two tables with the same
    values whose errors agree up to sign give the same result.  A negative
    error is not rejected; it counts as its magnitude. *)
Theorem weighted_average_ignores_error_sign :
  forall (df df' : DataFrame) (property_col error_col : string) (errors : list R),
    get_column df error_col = Some errors ->
    get_column df' error_col = Some (map Rabs errors) ->
    get_column df' property_col = get_column df property_col ->
    weighted_average_with_error df' property_col error_col
    = weighted_average_with_error df property_col error_col.
Proof.
  intros df df' pc ec errors He He' Hv.
  unfold weighted_average_with_error, getitem.
  rewrite He, He', Hv. cbn [bind]. now rewrite weights_of_Rabs.
Qed.

Lemma weighted_average_ignores_error_sign_witness :
  weighted_average_with_error two_measurements "property" "error"
  = weighted_average_with_error negative_error_table "property" "error".
Proof.
  apply (weighted_average_ignores_error_sign negative_error_table two_measurements
           "property" "error" [-1; 1]).
  - reflexivity.
  - cbn [map]. rewrite Rabs_left, Rabs_right by lra.
    replace (- -1) with 1 by lra. reflexivity.
  - reflexivity.
Defined.
















(** X7: a missing column is reported by a [KeyError] that names it; the error
    column is looked up first, so it is the one named when both are missing. *)
Theorem weighted_average_missing_column :
  forall (df : DataFrame) (property_col error_col : string),
    (get_column df error_col = None ->
     weighted_average_with_error df property_col error_col
     = Raise (KeyError error_col))
    /\ (get_column df error_col <> None ->
        get_column df property_col = None ->
        weighted_average_with_error df property_col error_col
        = Raise (KeyError property_col)).
Proof.
  intros df pc ec. unfold weighted_average_with_error, getitem. split.
  - intros ->. reflexivity.
  - intros He Hv. destruct (get_column df ec); [|congruence].
    cbn [bind]. now rewrite Hv.
Qed.

Lemma weighted_average_missing_column_witness :
  weighted_average_with_error two_measurements "value" "sigma"
  = Raise (KeyError "sigma")
  /\ weighted_average_with_error two_measurements "value" "error"
     = Raise (KeyError "value").
Proof.
  split.
  - apply (proj1 (weighted_average_missing_column two_measurements "value" "sigma")).
    reflexivity.
  - apply (proj2 (weighted_average_missing_column two_measurements "value" "error")).
    + discriminate.
    + reflexivity.
Defined.

(** ** aggregate_dataframe.py *)

Lemma transform_output_columns (df : DataFrame) (out : Frame float64) :
  transform_and_select_columns_dynamic df = Ok out ->
  columns out
  = "idx" :: "prob"
    :: flat_map (fun c => ["avg_" ++ c; "std_" ++ c])
         (filter (has_column df) signed_columns).
Proof.
  intros Hout.
  destruct (transform_returns_inv df out Hout) as [keys [probs [Hidx Hprob]]].
  rewrite (transform_closed_form df keys probs Hidx Hprob) in Hout.
  apply Ok_inj in Hout. subst out.
  change (columns (?a :: ?b :: ?rest)) with (fst a :: fst b :: columns rest).
  cbn [fst]. now rewrite columns_statistics.
Qed.

Lemma signed_columns_NoDup : NoDup signed_columns.
Proof.
  rewrite signed_columns_list.
  repeat (constructor; [cbn [In]; intros H;
                        repeat (destruct H as [H|H]; [discriminate|]); exact H|]).
  constructor.
Qed.

Lemma avg_name_inj (a b : string) : "avg_" ++ a = "avg_" ++ b -> a = b.
Proof. intros H. now injection H. Qed.

Lemma std_name_inj (a b : string) : "std_" ++ a = "std_" ++ b -> a = b.
Proof. intros H. now injection H. Qed.

Lemma statistics_names_In (names : list string) (n : string) :
  In n (flat_map (fun c => ["avg_" ++ c; "std_" ++ c]) names)
  <-> exists c, In c names /\ (n = "avg_" ++ c \/ n = "std_" ++ c).
Proof.
  rewrite in_flat_map. split; intros [c [Hc Hn]]; exists c; split; try assumption.
  - destruct Hn as [<-|[<-|[]]]; auto.
  - destruct Hn as [-> | ->]; [now left|now right; left].
Qed.

Lemma statistics_names_NoDup (names : list string) :
  NoDup names -> NoDup (flat_map (fun c => ["avg_" ++ c; "std_" ++ c]) names).
Proof.
  induction 1 as [|c names Hc _ IH]; [constructor|].
  cbn [flat_map app]. constructor; [|constructor; [|exact IH]].
  - intros [H|H]; [discriminate|].
    apply statistics_names_In in H. destruct H as [c' [Hc' [E|E]]].
    + apply avg_name_inj in E. now subst.
    + discriminate.
  - intros H. apply statistics_names_In in H. destruct H as [c' [Hc' [E|E]]].
    + discriminate.
    + apply std_name_inj in E. now subst.
Qed.

Lemma signed_columns_not_derived (c : string) :
  In c signed_columns ->
  c <> "idx" /\ c <> "prob" /\ forall c', c <> "avg_" ++ c' /\ c <> "std_" ++ c'.
Proof.
  rewrite signed_columns_list. cbn [In]. intros H.
  repeat (destruct H as [<-|H];
          [repeat split; try discriminate; intros c'; discriminate|]).
  destruct H.
Qed.

(** X8: the names of the output columns are pairwise distinct; the standard
    deviation of [prob], which the function computes, never reaches the
    output; and no signed-suffix column of the input is passed through under
    its own name. *)
Theorem output_column_names :
  forall (df : DataFrame) (out : Frame float64),
    transform_and_select_columns_dynamic df = Ok out ->
    NoDup (columns out)
    /\ ~ In "std_prob" (columns out)
    /\ forall c, In c signed_columns -> ~ In c (columns out).
Proof.
  intros df out Hout. rewrite (transform_output_columns df out Hout).
  set (present := filter (has_column df) signed_columns).
  assert (Hpresent : forall c, In c present -> In c signed_columns)
    by (intros c Hc; now apply filter_In in Hc).
  assert (Hrest : forall n,
             In n (flat_map (fun c => ["avg_" ++ c; "std_" ++ c]) present) ->
             n <> "idx" /\ n <> "prob" /\ n <> "std_prob"
             /\ forall c, In c signed_columns -> n <> c).
  { intros n Hn. apply statistics_names_In in Hn.
    destruct Hn as [c [Hc Hn]]. apply Hpresent in Hc.
    assert (Hprob : c <> "prob").
    { pose proof signed_columns_not_prob as H. rewrite Forall_forall in H. auto. }
    repeat split.
    - destruct Hn as [-> | ->]; discriminate.
    - destruct Hn as [-> | ->]; discriminate.
    - destruct Hn as [-> | ->]; [discriminate|].
      intros E. apply (std_name_inj c "prob") in E. contradiction.
    - intros c' Hc' E. subst c'.
      destruct (signed_columns_not_derived n Hc') as [_ [_ H]].
      destruct (H c) as [Ha Hs]. destruct Hn; contradiction. }
  repeat split.
  - constructor; [|constructor].
    + intros [H|H]; [discriminate|]. apply Hrest in H. now destruct H.
    + intros H. apply Hrest in H. now destruct H as [_ [H _]].
    + apply statistics_names_NoDup, NoDup_filter, signed_columns_NoDup.
  - intros [H|[H|H]]; try discriminate.
    apply Hrest in H. now destruct H as [_ [_ [H _]]].
  - intros c Hc [H|[H|H]].
    + destruct (signed_columns_not_derived c Hc) as [Hn _]. now symmetry in H.
    + destruct (signed_columns_not_derived c Hc) as [_ [Hn _]]. now symmetry in H.
    + apply Hrest in H. destruct H as [_ [_ [_ H]]]. now apply (H c Hc).
Qed.

Lemma output_column_names_witness :
  exists out,
    transform_and_select_columns_dynamic docstring_table = Ok out
    /\ NoDup (columns out)
    /\ ~ In "std_prob" (columns out)
    /\ ~ In "Smax+" (columns out).
Proof.
  pose proof (transform_closed_form docstring_table [1; 1; 2; 2] [0.1; 0.3; 0.5; 0.7]
                eq_refl eq_refl) as H.
  destruct (output_column_names docstring_table _ H) as [Hnd [Hstd Hsigned]].
  eexists. split; [exact H|]. split; [exact Hnd|]. split; [exact Hstd|].
  apply Hsigned. rewrite signed_columns_list. now left.
Defined.

Lemma has_column_of_get {A : Type} (df : Frame A) (name : string) :
  has_column df name = match get_column df name with Some _ => true | None => false end.
Proof.
  destruct (get_column df name) as [c|] eqn:E.
  - apply has_column_get. eauto.
  - now apply has_column_false.
Qed.

(** X9: the function reads the columns [idx], [prob] and the signed-suffix
    columns, and nothing else: two tables that agree on these columns give the
    same result, whatever other columns they hold and in whatever order their
    columns come. *)
Theorem transform_reads_only_its_columns :
  forall df df' : DataFrame,
    (forall c, c = "idx" \/ c = "prob" \/ In c signed_columns ->
               get_column df' c = get_column df c) ->
    transform_and_select_columns_dynamic df'
    = transform_and_select_columns_dynamic df.
Proof.
  intros df df' Hagree.
  assert (Hidx : get_column df' "idx" = get_column df "idx") by (apply Hagree; auto).
  assert (Hprob : get_column df' "prob" = get_column df "prob")
    by (apply Hagree; auto).
  destruct (get_column df "idx") as [keys|] eqn:Eidx.
  - destruct (get_column df "prob") as [probs|] eqn:Eprob.
    + rewrite (transform_closed_form df keys probs Eidx Eprob).
      rewrite (transform_closed_form df' keys probs Hidx Hprob).
      assert (Hfilter : filter (has_column df') signed_columns
                        = filter (has_column df) signed_columns).
      { apply filter_ext_in. intros c Hc.
        rewrite !has_column_of_get, Hagree by auto. reflexivity. }
      rewrite Hfilter. do 3 f_equal.
      apply flat_map_agree. intros c Hc. apply filter_In in Hc.
      unfold statistics_columns, column_or_empty.
      rewrite Hagree by tauto. reflexivity.
    + rewrite (transform_missing_prob df keys Eidx Eprob).
      now rewrite (transform_missing_prob df' keys Hidx Hprob).
  - rewrite (transform_missing_idx df Eidx).
    now rewrite (transform_missing_idx df' Hidx).
Qed.

Lemma transform_reads_only_its_columns_witness :
  transform_and_select_columns_dynamic docstring_table_with_label
  = transform_and_select_columns_dynamic docstring_table.
Proof.
  apply transform_reads_only_its_columns.
  intros c Hc. rewrite signed_columns_list in Hc. cbn [In] in Hc.
  repeat (destruct Hc as [Hc|Hc]; [subst c; reflexivity|]).
  destruct Hc.
Defined.













Lemma group_values_absent (keys values : list R) (k : R) :
  ~ In k keys -> group_values keys values k = [].
Proof.
  revert values. induction keys as [|key keys IH]; intros [|v vs] Hk;
    cbn [group_values]; try reflexivity.
  destruct (Req_dec_T key k) as [->|_].
  - exfalso. apply Hk. now left.
  - apply IH. intros H. apply Hk. now right.
Qed.

Lemma group_values_single (keys values : list R) (j : nat) (k v : R) :
  NoDup keys ->
  nth_error keys j = Some k -> nth_error values j = Some v ->
  group_values keys values k = [v].
Proof.
  intros Hnd. revert values j.
  induction Hnd as [|key keys Hkey Hnd IH]; intros [|x vs] [|j] Hk Hv;
    try discriminate; cbn [nth_error group_values] in *.
  - injection Hk as ->. injection Hv as ->.
    destruct (Req_dec_T k k) as [_|N]; [|congruence].
    now rewrite group_values_absent.
  - destruct (Req_dec_T key k) as [->|_].
    + exfalso. apply Hkey. eapply nth_error_In. exact Hk.
    + eapply IH; eassumption.
Qed.

Lemma group_keys_length_distinct (keys : list R) :
  NoDup keys -> length (group_keys keys) = length keys.
Proof.
  intros Hnd. apply Permutation_length.
  apply NoDup_Permutation; [apply group_keys_NoDup|exact Hnd|apply group_keys_In].
Qed.

Lemma mean_single (v : R) : mean [v] = Fin v.
Proof.
  rewrite mean_nonempty by discriminate. f_equal.
  unfold arithmetic_mean. simpl. field.
Qed.

(** X12: on a table whose [idx] values are pairwise distinct nothing is
    aggregated: the output has as many rows as the input, and the row of a key
    holds the [prob] and the values of the input row of that key, with NaN in
    every [std_] column. *)
Theorem distinct_keys_rows :
  forall (df : DataFrame) (keys probs : list R),
    get_column df "idx" = Some keys ->
    get_column df "prob" = Some probs ->
    NoDup keys ->
    exists out,
      transform_and_select_columns_dynamic df = Ok out
      /\ nrows out = length keys
      /\ (forall j k p,
            nth_error keys j = Some k -> nth_error probs j = Some p ->
            exists i, cell out "idx" i = Some (Fin k)
                      /\ cell out "prob" i = Some (Fin p))
      /\ (forall c values j k v,
            In c signed_columns ->
            get_column df c = Some values ->
            nth_error keys j = Some k -> nth_error values j = Some v ->
            exists i, cell out "idx" i = Some (Fin k)
                      /\ cell out ("avg_" ++ c) i = Some (Fin v)
                      /\ cell out ("std_" ++ c) i = Some NaN).
Proof.
  intros df keys probs Hidx Hprob Hnd.
  eexists. split; [exact (transform_closed_form df keys probs Hidx Hprob)|].
  assert (Hrow : forall j k, nth_error keys j = Some k ->
                             exists i, nth_error (group_keys keys) i = Some k).
  { intros j k Hk. apply In_nth_error, group_keys_In.
    eapply nth_error_In. exact Hk. }
  split; [|split].
  - cbn [nrows]. rewrite length_map. now apply group_keys_length_distinct.
  - intros j k p Hk Hp. destruct (Hrow j k Hk) as [i Hi]. exists i.
    unfold cell.
    change (get_column (?a :: ?b :: ?rest) "idx") with (Some (snd a)).
    change (get_column (?a :: ?b :: ?rest) "prob") with (Some (snd b)).
    cbn [snd]. unfold group_means.
    rewrite !(map_nth_error _ _ _ Hi).
    rewrite (group_values_single keys probs j k p Hnd Hk Hp), mean_single.
    split; reflexivity.
  - intros c values j k v Hc Hvalues Hk Hv. destruct (Hrow j k Hk) as [i Hi].
    exists i.
    assert (Hhas : has_column df c = true) by (apply has_column_get; eauto).
    assert (Hcol : column_or_empty df c = values)
      by (unfold column_or_empty; now rewrite Hvalues).
    destruct (output_statistics_columns df keys (map Fin (group_keys keys))
                (group_means keys probs) c Hc Hhas) as [Havg Hstd].
    unfold cell. rewrite Havg, Hstd, Hcol.
    change (get_column (?a :: ?b :: ?rest) "idx") with (Some (snd a)).
    cbn [snd]. unfold group_means, group_stds.
    rewrite !(map_nth_error _ _ _ Hi).
    rewrite (group_values_single keys values j k v Hnd Hk Hv), mean_single.
    rewrite (std_single [v]) by reflexivity. repeat split.
Qed.

Lemma distinct_keys_NoDup : NoDup [3; 1; 2].
Proof.
  repeat (constructor; [cbn [In]; intros H;
                        repeat (destruct H as [H|H]; [lra|]); exact H|]).
  constructor.
Qed.

Lemma distinct_keys_rows_witness :
  exists out,
    transform_and_select_columns_dynamic distinct_keys_table = Ok out
    /\ nrows out = 3%nat
    /\ exists i, cell out "idx" i = Some (Fin 3)
                 /\ cell out "avg_Smax+" i = Some (Fin 30)
                 /\ cell out "std_Smax+" i = Some NaN.
Proof.
  destruct (distinct_keys_rows distinct_keys_table [3; 1; 2] [0.3; 0.1; 0.2]
              eq_refl eq_refl distinct_keys_NoDup)
    as [out [Hout [Hrows [_ Hcells]]]].
  exists out. split; [exact Hout|]. split; [exact Hrows|].
  apply (Hcells "Smax+" [30; 10; 20] 0%nat 3 30).
  - rewrite signed_columns_list. now left.
  - reflexivity.
  - reflexivity.
  - reflexivity.
Defined.



(** ** compute_max.py *)

Lemma analyse_inversion (np : NumPy) (x y : list R) (offset order : Z) (a : Analysis) :
  analyse np x y offset order = Ok a ->
  exists idx emp_x coefficients,
    argmax y = Ok idx
    /\ iloc x idx = Ok emp_x
    /\ polyfit np
         (iloc_slice x (Z.max 0 (idx - offset)) (Z.min (len x) (idx + offset + 1)))
         (iloc_slice y (Z.max 0 (idx - offset)) (Z.min (len x) (idx + offset + 1)))
         order = Ok coefficients
    /\ idx_of_max a = idx
    /\ x_window a
       = iloc_slice x (Z.max 0 (idx - offset)) (Z.min (len x) (idx + offset + 1))
    /\ y_window a
       = iloc_slice y (Z.max 0 (idx - offset)) (Z.min (len x) (idx + offset + 1))
    /\ poly_func a = poly1d coefficients
    /\ empirical_max_x (results a) = emp_x
    /\ empirical_max_y (results a) = series_max y
    /\ exists v, RMSE (results a) = Some (sqrt v).
Proof.
  unfold analyse. intros H.
  destruct (argmax y) as [idx|] eqn:Harg; [|discriminate]. cbn [bind] in H.
  destruct (iloc x idx) as [emp_x|] eqn:Hiloc; [|discriminate]. cbn [bind] in H.
  match type of H with
  | context [polyfit np ?xw ?yw order] =>
      destruct (polyfit np xw yw order) as [coefficients|] eqn:Hfit
  end; [|discriminate].
  cbn [bind] in H. apply Ok_inj in H. subst a.
  exists idx, emp_x, coefficients.
  cbn [idx_of_max x_window y_window poly_func results empirical_max_x
         empirical_max_y RMSE set_RMSE].
  repeat split; try reflexivity; try assumption. eexists. reflexivity.
Qed.

Lemma compute_max_inversion (np : NumPy) (x y : list R) (offset order : Z) (r : Results) :
  compute_max np x y offset order = Ok r ->
  exists a,
    analyse np x y offset order = Ok a
    /\ ((valid_points a = []
         /\ r = append_warning (results a) no_maximum_warning)
        \/ (exists p rest,
              valid_points a = p :: rest
              /\ r = set_errors (set_poly_max (results a) (max_by snd p rest))
                       (Rabs (empirical_max_x (results a) - fst (max_by snd p rest)))
                       (Rabs (empirical_max_y (results a) - snd (max_by snd p rest))))).
Proof.
  unfold compute_max. intros H.
  destruct (analyse np x y offset order) as [a|]; [|discriminate].
  cbn [bind] in H. exists a. split; [reflexivity|].
  destruct (valid_points a) as [|p rest]; apply Ok_inj in H; subst r.
  - left. split; reflexivity.
  - right. exists p, rest. split; reflexivity.
Qed.

(** X14: the shape of every result.  The RMSE is always set and never
    negative.  Either the list of warnings is empty and the four fields of the
    polynomial maximum are all set, the two errors being the absolute
    differences to the empirical maximum and so never negative; or the list
    holds the one warning and the four fields are all unset.  No result mixes
    the two. *)
Theorem compute_max_result_shape :
  forall (np : NumPy) (x y : list R) (offset order : Z) (r : Results),
    compute_max np x y offset order = Ok r ->
    (exists rmse, RMSE r = Some rmse /\ 0 <= rmse)
    /\ ((warnings r = []
         /\ exists px py,
             poly_max_x r = Some px /\ poly_max_y r = Some py
             /\ error_x r = Some (Rabs (empirical_max_x r - px))
             /\ error_y r = Some (Rabs (empirical_max_y r - py))
             /\ 0 <= Rabs (empirical_max_x r - px)
             /\ 0 <= Rabs (empirical_max_y r - py))
        \/ (warnings r = ["No valid maxima found in polynomial fit"]
            /\ poly_max_x r = None /\ poly_max_y r = None
            /\ error_x r = None /\ error_y r = None)).
Proof.
  intros np x y offset order r Hr.
  destruct (compute_max_inversion np x y offset order r Hr) as [a [Ha Hcases]].
  destruct (analyse_inversion np x y offset order a Ha)
    as [idx [emp_x [coefficients [_ [_ [_ [_ [_ [_ [_ [_ [_ [v Hv]]]]]]]]]]]]].
  destruct (analyse_inv np x y offset order a Ha)
    as [_ [_ [Hpx [Hpy [Hex [Hey [Hw _]]]]]]].
  split.
  - exists (sqrt v). split; [|apply sqrt_pos].
    destruct Hcases as [[_ ->]|[p [rest [_ ->]]]]; exact Hv.
  - destruct Hcases as [[_ ->]|[p [rest [_ ->]]]].
    + right. cbn [append_warning warnings poly_max_x poly_max_y error_x error_y].
      rewrite Hw. repeat split; assumption.
    + left. cbn [set_errors set_poly_max warnings poly_max_x poly_max_y error_x
                   error_y empirical_max_x empirical_max_y].
      split; [exact Hw|]. do 2 eexists.
      repeat split; apply Rabs_pos.
Qed.

Lemma compute_max_result_shape_witness :
  exists r rmse,
    compute_max numpy parabola_x parabola_y 1 2 = Ok r
    /\ RMSE r = Some rmse /\ 0 <= rmse.
Proof.
  destruct (compute_max_result_shape numpy parabola_x parabola_y 1 2 _
              parabola_example) as [[rmse [Hrmse Hpos]] _].
  eexists. exists rmse. split; [exact parabola_example|]. split; assumption.
Defined.

Lemma argmax_Ok_inv (y : list R) (idx : Z) :
  argmax y = Ok idx -> exists i : nat, idx = Z.of_nat i /\ y <> [].
Proof.
  destruct y as [|v l]; [discriminate|].
  intros H. apply Ok_inj in H. subst idx. eexists. split; [reflexivity|discriminate].
Qed.

Lemma iloc_Ok_inv (x : list R) (i : nat) (v : R) :
  iloc x (Z.of_nat i) = Ok v -> (i < length x)%nat /\ v = nth i x 0.
Proof.
  unfold iloc, len.
  destruct (Z.ltb_spec (Z.of_nat i) 0); [lia|].
  destruct (Z.leb_spec 0 (Z.of_nat i)); [|lia].
  destruct (Z.ltb_spec (Z.of_nat i) (Z.of_nat (length x))); cbn [andb];
    [|discriminate].
  intros Hv. apply Ok_inj in Hv. rewrite Nat2Z.id in Hv. split; [lia|now symmetry].
Qed.

(** The windows, when [offset] is not negative and [y] is at least as long as
    [x]. *)
Lemma analyse_windows (np : NumPy) (x y : list R) (offset order : Z) (a : Analysis) :
  analyse np x y offset order = Ok a ->
  (0 <= offset)%Z -> (length x <= length y)%nat ->
  exists i : nat,
    argmax y = Ok (Z.of_nat i)
    /\ idx_of_max a = Z.of_nat i
    /\ empirical_max_x (results a) = nth i x 0
    /\ let s := Z.to_nat (Z.max 0 (Z.of_nat i - offset)) in
       let e := Z.to_nat (Z.min (len x) (Z.of_nat i + offset + 1)) in
       (s <= i < e)%nat /\ (e <= length x)%nat
       /\ x_window a = index_window x s e
       /\ y_window a = index_window y s e.
Proof.
  intros Ha Hoff Hlen.
  destruct (analyse_inversion np x y offset order a Ha)
    as [idx [emp_x [coefficients
         [Harg [Hiloc [_ [Hidx [Hxw [Hyw [_ [Hex _]]]]]]]]]]].
  destruct (argmax_Ok_inv y idx Harg) as [i [-> _]].
  destruct (iloc_Ok_inv x i emp_x Hiloc) as [Hix ->].
  exists i. repeat (split; [assumption|]).
  destruct (window_bounds (length x) i offset Hix Hoff) as [Hs [He [Es Ee]]].
  cbv zeta. unfold len in *.
  set (s := Z.to_nat (Z.max 0 (Z.of_nat i - offset))) in *.
  set (e := Z.to_nat (Z.min (Z.of_nat (length x)) (Z.of_nat i + offset + 1))) in *.
  split; [exact Hs|]. split; [exact He|].
  rewrite Es, Ee in Hxw, Hyw.
  rewrite (iloc_slice_window x s e) in Hxw by lia.
  rewrite (iloc_slice_window y s e) in Hyw by lia.
  split; assumption.
Qed.

Lemma index_window_In (l : list R) (s e j : nat) :
  (s <= j < e)%nat -> In (nth j l 0) (index_window l s e).
Proof.
  intros H. unfold index_window. apply in_map_iff. exists j.
  split; [reflexivity|]. apply in_seq. lia.
Qed.

Lemma index_window_incl (l : list R) (s e : nat) (v : R) :
  (e <= length l)%nat -> In v (index_window l s e) -> In v l.
Proof.
  intros He Hin. unfold index_window in Hin. apply in_map_iff in Hin.
  destruct Hin as [j [<- Hj]]. apply in_seq in Hj. apply nth_In. lia.
Qed.

Lemma series_min_max_spec (l : list R) :
  l <> [] ->
  In (series_min l) l /\ In (series_max l) l
  /\ forall v, In v l -> series_min l <= v <= series_max l.
Proof.
  intros Hne. destruct l as [|a l]; [congruence|].
  unfold series_min, series_max.
  destruct (fold_Rmin_spec l a) as [Hmin Hmin_in].
  destruct (fold_Rmax_spec l a) as [Hmax Hmax_in].
  repeat split; auto.
Qed.

(** X15: with [offset >= 0] and [y] at least as long as [x], a polynomial
    maximum the function returns lies in the window, as the empirical maximum
    does; so [error_x] is never larger than the spread of the window, which is
    never larger than the spread of [x]. *)
Theorem error_x_within_window :
  forall (np : NumPy) (x y : list R) (offset order : Z) (r : Results) (px : R),
    compute_max np x y offset order = Ok r ->
    (0 <= offset)%Z -> (length x <= length y)%nat ->
    poly_max_x r = Some px ->
    exists a,
      analyse np x y offset order = Ok a
      /\ series_min (x_window a) <= px <= series_max (x_window a)
      /\ series_min (x_window a) <= empirical_max_x r <= series_max (x_window a)
      /\ error_x r = Some (Rabs (empirical_max_x r - px))
      /\ Rabs (empirical_max_x r - px)
         <= series_max (x_window a) - series_min (x_window a)
      /\ series_max (x_window a) - series_min (x_window a)
         <= series_max x - series_min x.
Proof.
  intros np x y offset order r px Hr Hoff Hlen Hpx.
  destruct (compute_max_inversion np x y offset order r Hr) as [a [Ha Hcases]].
  destruct (analyse_inv np x y offset order a Ha)
    as [_ [_ [Hnone [_ [_ [_ [_ [_ Hne]]]]]]]].
  destruct (analyse_windows np x y offset order a Ha Hoff Hlen)
    as [i [_ [_ [Hex [Hs [He [Hxw _]]]]]]].
  cbv zeta in Hs, He, Hxw.
  exists a. split; [exact Ha|].
  destruct Hcases as [[_ ->]|[p [rest [Hvp ->]]]].
  - cbn [append_warning poly_max_x] in Hpx. congruence.
  - cbn [set_errors set_poly_max poly_max_x error_x empirical_max_x] in *.
    injection Hpx as Hpx.
    destruct (max_by_spec snd rest p) as [Hmem _]. rewrite <- Hvp in Hmem.
    destruct (max_by snd p rest) as [qx qy] eqn:Hq. cbn [fst] in *. subst qx.
    apply (valid_points_spec np x y offset order a Ha) in Hmem.
    destruct Hmem as [[z [_ [_ [_ Hb]]]] _].
    destruct (series_min_max_spec (x_window a) Hne) as [Hmin_in [Hmax_in Hrange]].
    assert (Hemp : series_min (x_window a) <= empirical_max_x (results a)
                   <= series_max (x_window a)).
    { apply Hrange. rewrite Hex, Hxw. now apply index_window_In. }
    assert (Hx : x <> []) by (intros ->; simpl in He; lia).
    destruct (series_min_max_spec x Hx) as [_ [_ Hxrange]].
    assert (Hlo : series_min x <= series_min (x_window a)).
    { apply Hxrange. rewrite Hxw in Hmin_in |- *.
      eapply index_window_incl; [|exact Hmin_in]. exact He. }
    assert (Hhi : series_max (x_window a) <= series_max x).
    { apply Hxrange. rewrite Hxw in Hmax_in |- *.
      eapply index_window_incl; [|exact Hmax_in]. exact He. }
    repeat split; try lra.
    unfold Rabs. destruct (Rcase_abs _); lra.
Qed.

Lemma error_x_within_window_witness :
  exists r a,
    compute_max numpy parabola_x parabola_y 1 2 = Ok r
    /\ analyse numpy parabola_x parabola_y 1 2 = Ok a
    /\ series_min (x_window a) <= 3 <= series_max (x_window a).
Proof.
  destruct (error_x_within_window numpy parabola_x parabola_y 1 2 _ 3
              parabola_example) as [a [Ha [Hb _]]].
  - lia.
  - simpl. lia.
  - reflexivity.
  - eexists. exists a. split; [exact parabola_example|]. split; assumption.
Defined.

Lemma index_window_all (l : list R) : index_window l 0 (length l) = l.
Proof.
  unfold index_window. rewrite Nat.sub_0_r.
  rewrite <- (firstn_skipn_window l (length l) 0) by lia.
  cbn [skipn]. apply firstn_all.
Qed.

(** X16: the size of the fit window, for [offset >= 0] and [y] at least as long
    as [x].  The two windows have one length, which is at least 1 and at most
    [2 * offset + 1]; it is exactly [2 * offset + 1] when the maximum is at least
    [offset] positions away from both ends, and when [offset] reaches the length
    of [x] the window is the whole of [x]. *)
Theorem fit_window_size :
  forall (np : NumPy) (x y : list R) (offset order : Z) (a : Analysis),
    analyse np x y offset order = Ok a ->
    (0 <= offset)%Z -> (length x <= length y)%nat ->
    length (y_window a) = length (x_window a)
    /\ (1 <= len (x_window a) <= 2 * offset + 1)%Z
    /\ ((offset <= idx_of_max a)%Z -> (idx_of_max a + offset < len x)%Z ->
        len (x_window a) = (2 * offset + 1)%Z)
    /\ ((len x <= offset)%Z ->
        x_window a = x /\ (length x = length y -> y_window a = y)).
Proof.
  intros np x y offset order a Ha Hoff Hlen.
  destruct (analyse_windows np x y offset order a Ha Hoff Hlen)
    as [i [_ [Hidx [_ [Hs [He [Hxw Hyw]]]]]]].
  cbv zeta in Hs, He, Hxw, Hyw. unfold len in *.
  rewrite Hxw, Hyw, Hidx, !index_window_length.
  split; [reflexivity|]. split; [lia|]. split; [lia|].
  intros Hall.
  replace (Z.to_nat (Z.max 0 (Z.of_nat i - offset))) with 0%nat by lia.
  replace (Z.to_nat (Z.min (Z.of_nat (length x)) (Z.of_nat i + offset + 1)))
    with (length x) by lia.
  split; [apply index_window_all|].
  intros E. rewrite E. apply index_window_all.
Qed.

Lemma fit_window_size_witness :
  exists a,
    analyse numpy parabola_x parabola_y 1 2 = Ok a
    /\ length (y_window a) = length (x_window a)
    /\ (1 <= len (x_window a) <= 2 * 1 + 1)%Z.
Proof.
  destruct parabola_analysis as [a [Ha _]].
  destruct (fit_window_size numpy parabola_x parabola_y 1 2 a Ha) as [H1 [H2 _]].
  - lia.
  - simpl. lia.
  - exists a. repeat split; try assumption; apply H2.
Defined.

Lemma compute_max_raises_argmax (np : NumPy) (x y : list R) (offset order : Z)
      (e : exception) :
  argmax y = Raise e -> compute_max np x y offset order = Raise e.
Proof. intros H. unfold compute_max, analyse. now rewrite H. Qed.

Lemma compute_max_raises_iloc (np : NumPy) (x y : list R) (offset order idx : Z)
      (e : exception) :
  argmax y = Ok idx -> iloc x idx = Raise e ->
  compute_max np x y offset order = Raise e.
Proof.
  intros Harg H. unfold compute_max, analyse. rewrite Harg. cbn [bind]. now rewrite H.
Qed.

Lemma iloc_out_of_range (x : list R) (i : nat) :
  (length x <= i)%nat ->
  iloc x (Z.of_nat i) = Raise (IndexError "single positional indexer is out-of-bounds").
Proof.
  intros Hi. unfold iloc, len.
  destruct (Z.ltb_spec (Z.of_nat i) 0); [lia|].
  destruct (Z.ltb_spec (Z.of_nat i) (Z.of_nat (length x))); [lia|].
  now rewrite andb_false_r.
Qed.

(** X17: the exceptions of bad arguments.  An empty [y] raises the ValueError
    of [argmax]; a maximum of [y] at a position [x] does not have, as with an
    empty [x], raises the IndexError of [iloc]; and, past these, a negative
    [order] raises the ValueError of [np.polyfit]. *)
Theorem compute_max_exceptions :
  forall (np : NumPy) (x y : list R) (offset order : Z),
    (y = [] ->
     compute_max np x y offset order
     = Raise (ValueError "attempt to get argmax of an empty sequence"))
    /\ (forall i : nat,
          argmax y = Ok (Z.of_nat i) -> (length x <= i)%nat ->
          compute_max np x y offset order
          = Raise (IndexError "single positional indexer is out-of-bounds"))
    /\ (forall i : nat,
          argmax y = Ok (Z.of_nat i) -> (i < length x)%nat -> (order < 0)%Z ->
          compute_max np x y offset order = Raise (ValueError "expected deg >= 0")).
Proof.
  intros np x y offset order. split; [|split].
  - intros ->. now apply compute_max_raises_argmax.
  - intros i Harg Hi.
    apply (compute_max_raises_iloc np x y offset order (Z.of_nat i)); [exact Harg|].
    now apply iloc_out_of_range.
  - intros i Harg Hi Hord.
    apply (analyse_raises_fit np x y offset order (Z.of_nat i) (nth i x 0));
      [exact Harg|now apply iloc_in_range|].
    unfold polyfit. destruct (Z.ltb_spec order 0); [reflexivity|lia].
Qed.

Lemma compute_max_exceptions_witness :
  compute_max numpy parabola_x [] 1 2
  = Raise (ValueError "attempt to get argmax of an empty sequence")
  /\ compute_max numpy [] parabola_y 1 2
     = Raise (IndexError "single positional indexer is out-of-bounds")
  /\ compute_max numpy parabola_x parabola_y 1 (-1)
     = Raise (ValueError "expected deg >= 0").
Proof.
  destruct (compute_max_exceptions numpy parabola_x [] 1 2) as [H1 _].
  destruct (compute_max_exceptions numpy [] parabola_y 1 2) as [_ [H2 _]].
  destruct (compute_max_exceptions numpy parabola_x parabola_y 1 (-1)) as [_ [_ H3]].
  split; [now apply H1|]. split.
  - apply (H2 1%nat parabola_argmax). simpl. lia.
  - apply (H3 1%nat parabola_argmax); [simpl|]; lia.
Defined.




Lemma poly1d_short (c : list R) :
  (length c <= 1)%nat -> exists d, poly1d c = [d].
Proof.
  intros H. destruct c as [|a [|b c]]; [| |simpl in H; lia].
  - exists 0. reflexivity.
  - unfold poly1d. cbn [trim_zeros]. destruct (Req_dec_T a 0); eexists; reflexivity.
Qed.

Lemma trim_zeros_length (c : list R) : (length (trim_zeros c) <= length c)%nat.
Proof.
  induction c as [|a c IH]; [simpl; lia|].
  cbn [trim_zeros]. destruct (Req_dec_T a 0); simpl in *; lia.
Qed.

Lemma polyder_short (p : list R) :
  (length p <= 2)%nat -> exists d, polyder p = [d].
Proof.
  intros H. unfold polyder. apply poly1d_short.
  rewrite polyder_coefficients_length. lia.
Qed.

Lemma poly1d_length (c : list R) :
  (length c <= 2)%nat -> (length (poly1d c) <= 2)%nat.
Proof.
  intros H. unfold poly1d. pose proof (trim_zeros_length c).
  destruct (trim_zeros c); simpl in *; lia.
Qed.

(** X19: a fit of degree 0 or 1 never has a maximum.  When the solver returns
    the [order + 1] coefficients of the fit and the root finder finds no root in
    a constant, as numpy does, the derivative is a constant, no critical point
    is found, and the function returns the warning whatever the data are. *)
Theorem low_order_has_no_maximum :
  forall (np : NumPy) (x y : list R) (offset order : Z) (a : Analysis),
    analyse np x y offset order = Ok a ->
    (order <= 1)%Z ->
    length (lstsq np (x_window a) (y_window a) (Z.to_nat order))
    = S (Z.to_nat order) ->
    (forall c, roots np [c] = []) ->
    exists r,
      compute_max np x y offset order = Ok r
      /\ warnings r = ["No valid maxima found in polynomial fit"]
      /\ poly_max_x r = None /\ poly_max_y r = None
      /\ error_x r = None /\ error_y r = None.
Proof.
  intros np x y offset order a Ha Hord Hlen Hroots.
  destruct (analyse_inversion np x y offset order a Ha)
    as [idx [emp_x [coefficients
         [_ [_ [Hfit [_ [Hxw [Hyw [Hp _]]]]]]]]]].
  rewrite <- Hxw, <- Hyw in Hfit.
  assert (Hc : coefficients = lstsq np (x_window a) (y_window a) (Z.to_nat order)).
  { unfold polyfit in Hfit. destruct (order <? 0)%Z; [discriminate|].
    destruct (x_window a); [discriminate|].
    destruct (_ =? _)%nat; [|discriminate]. now apply Ok_inj in Hfit. }
  destruct (analyse_inv np x y offset order a Ha)
    as [Hd [Hvp [Hpx [Hpy [Hex [Hey [Hw _]]]]]]].
  assert (Hshort : (length (poly_func a) <= 2)%nat).
  { rewrite Hp. apply poly1d_length. rewrite Hc, Hlen. lia. }
  destruct (polyder_short (poly_func a) Hshort) as [d Hder].
  rewrite Hd, Hder, Hroots in Hvp. cbn [filter map] in Hvp.
  unfold compute_max. rewrite Ha. cbn [bind]. rewrite Hvp.
  eexists. split; [reflexivity|].
  cbn [append_warning warnings poly_max_x poly_max_y error_x error_y].
  rewrite Hw. repeat split; assumption.
Qed.

Lemma low_order_has_no_maximum_witness :
  exists r,
    compute_max numpy rising_x rising_y 1 1 = Ok r
    /\ warnings r = ["No valid maxima found in polynomial fit"]
    /\ poly_max_x r = None.
Proof.
  destruct rising_analysis as [a [Ha [Hxw _]]].
  destruct (analyse_windows numpy rising_x rising_y 1 1 a Ha) as [i [Harg [_ [_ H]]]];
    [lia|simpl; lia|].
  rewrite rising_argmax in Harg. apply Ok_inj in Harg.
  assert (i = 2%nat) by lia. subst i.
  cbv zeta in H. destruct H as [_ [_ [_ Hyw]]].
  destruct (low_order_has_no_maximum numpy rising_x rising_y 1 1 a Ha)
    as [r [Hr [Hw [Hpx _]]]].
  - lia.
  - rewrite Hxw, Hyw.
    change (index_window rising_y _ _) with [2; 3].
    change (lstsq numpy [2; 3] [2; 3] (Z.to_nat 1)) with (exact_lstsq [2; 3] [2; 3] 1).
    now rewrite rising_fit.
  - exact exact_roots_constant.
  - exists r. repeat split; assumption.
Defined.

(** ** error_weighted_average.py: a change of unit of the values *)



